(** * Proto-to-docs renderer of the A2A documentation ([.mkdocs/macros.py])

    A shallow embedding of the MkDocs macro module that renders Protocol
    Buffer messages, enums and services as Markdown tables, with the
    properties of its specification.

    Python [str] values are modelled by [string].  Character classes
    (whitespace, line boundaries, letters) are the ASCII ones; a character
    above 127 is neither whitespace, nor a line boundary, nor a letter. *)

From Stdlib Require Import Bool Arith List Ascii String Lia.
Import ListNotations.
Open Scope list_scope.
Open Scope string_scope.

(* ------------------------------------------------------------------ *)
(** ** Python string operations used by the module *)
(* ------------------------------------------------------------------ *)

Module PyStr.

Definition is_empty (s : string) : bool :=
  match s with EmptyString => true | String _ _ => false end.

(** Truthiness of a [str]: every string but the empty one. *)
Definition truthy (s : string) : bool := negb (is_empty s).

Definition code (c : ascii) : nat := nat_of_ascii c.

Definition between (lo hi : nat) (c : ascii) : bool :=
  Nat.leb lo (code c) && Nat.leb (code c) hi.

(** [str.isspace] on ASCII: TAB, LF, VT, FF, CR, FS, GS, RS, US, SPACE. *)
Definition is_space (c : ascii) : bool :=
  between 9 13 c || between 28 31 c || Nat.eqb (code c) 32.

(** Line boundaries of [str.splitlines] on ASCII: LF, VT, FF, CR, FS, GS, RS. *)
Definition is_linebreak (c : ascii) : bool :=
  between 10 13 c || between 28 30 c.

Definition is_upper (c : ascii) : bool := between 65 90 c.
Definition is_lower (c : ascii) : bool := between 97 122 c.
Definition is_cased (c : ascii) : bool := is_upper c || is_lower c.

Definition to_lower (c : ascii) : ascii :=
  if is_upper c then ascii_of_nat (code c + 32) else c.
Definition to_upper (c : ascii) : ascii :=
  if is_lower c then ascii_of_nat (code c - 32) else c.

Definition dquote : ascii := ascii_of_nat 34.
Definition backtick : ascii := ascii_of_nat 96.

(** [s.lower()] *)
Fixpoint lower (s : string) : string :=
  match s with
  | EmptyString => EmptyString
  | String c r => String (to_lower c) (lower r)
  end.

(** [s.title()]: the first letter of every run of letters in upper case,
    the other letters of the run in lower case. *)
Fixpoint title_from (previous_is_cased : bool) (s : string) : string :=
  match s with
  | EmptyString => EmptyString
  | String c r =>
      if is_cased c
      then String (if previous_is_cased then to_lower c else to_upper c)
                  (title_from true r)
      else String c (title_from false r)
  end.

Definition title (s : string) : string := title_from false s.

Fixpoint drop_while (p : ascii -> bool) (s : string) : string :=
  match s with
  | EmptyString => EmptyString
  | String c r => if p c then drop_while p r else s
  end.

Fixpoint drop_while_end (p : ascii -> bool) (s : string) : string :=
  match s with
  | EmptyString => EmptyString
  | String c r =>
      let r' := drop_while_end p r in
      if is_empty r' && p c then EmptyString else String c r'
  end.

(** [s.strip()] and [s.strip(chars)], by the predicate of the stripped
    characters. *)
Definition strip_by (p : ascii -> bool) (s : string) : string :=
  drop_while_end p (drop_while p s).

Definition strip (s : string) : string := strip_by is_space s.

Definition strip_char (ch : ascii) (s : string) : string :=
  strip_by (Ascii.eqb ch) s.

Fixpoint strip_prefix (pre s : string) : option string :=
  match pre, s with
  | EmptyString, _ => Some s
  | String a p, String b r => if Ascii.eqb a b then strip_prefix p r else None
  | String _ _, EmptyString => None
  end.

(** [s.startswith(pre)] *)
Definition startswith (pre s : string) : bool :=
  match strip_prefix pre s with Some _ => true | None => false end.

(** [s.removeprefix(pre)] *)
Definition removeprefix (pre s : string) : string :=
  match strip_prefix pre s with Some r => r | None => s end.

Fixpoint strip_suffix (suf s : string) : option string :=
  if String.eqb s suf then Some EmptyString
  else match s with
       | EmptyString => None
       | String c r => option_map (String c) (strip_suffix suf r)
       end.

(** [s.removesuffix(suf)] *)
Definition removesuffix (suf s : string) : string :=
  match strip_suffix suf s with Some r => r | None => s end.

(** [sub in s] *)
Fixpoint contains (sub s : string) : bool :=
  startswith sub s ||
  match s with
  | EmptyString => false
  | String _ r => contains sub r
  end.

(** [s.split(sep)] for a one-character separator: never the empty list. *)
Fixpoint split (sep : ascii) (s : string) : list string :=
  match s with
  | EmptyString => [EmptyString]
  | String c r =>
      if Ascii.eqb c sep then EmptyString :: split sep r
      else match split sep r with
           | h :: t => String c h :: t
           | [] => [String c EmptyString]
           end
  end.

Definition CR : ascii := ascii_of_nat 13.
Definition LF : ascii := ascii_of_nat 10.

(** [s.splitlines()]: CR LF is one boundary, and a final boundary opens
    no further line. *)
Fixpoint splitlines (s : string) : list string :=
  match s with
  | EmptyString => []
  | String c r =>
      if is_linebreak c then
        EmptyString ::
          match r with
          | String c2 r' =>
              if Ascii.eqb c CR && Ascii.eqb c2 LF
              then splitlines r' else splitlines r
          | EmptyString => splitlines r
          end
      else match splitlines r with
           | h :: t => String c h :: t
           | [] => [String c EmptyString]
           end
  end.

(** [sep.join(parts)] *)
Definition join (sep : string) (parts : list string) : string :=
  String.concat sep parts.

End PyStr.

(* ------------------------------------------------------------------ *)
(** ** Configuration: the primitive-name table *)
(* ------------------------------------------------------------------ *)

Definition TYPE_MAP : list (string * string) :=
  [ ("string", "string");
    ("int32", "integer");
    ("int64", "integer");
    ("bool", "boolean");
    ("bytes", "bytes");
    ("double", "float");
    ("float", "float");
    ("google.protobuf.Struct", "object");
    ("google.protobuf.Timestamp", "timestamp");
    ("google.protobuf.Value", "any");
    ("google.protobuf.Empty", "empty") ].

(** [d.get(key)] on a dict kept as an association list. *)
Fixpoint dict_lookup {V : Type} (key : string) (d : list (string * V)) : option V :=
  match d with
  | [] => None
  | (k, v) :: rest => if String.eqb k key then Some v else dict_lookup key rest
  end.

(** [key in d] *)
Definition dict_mem {V : Type} (key : string) (d : list (string * V)) : bool :=
  match dict_lookup key d with Some _ => true | None => false end.

(** [d.get(key, default)] *)
Definition dict_get {V : Type} (key : string) (default : V) (d : list (string * V)) : V :=
  match dict_lookup key d with Some v => v | None => default end.

(** Truthiness of an optional [str] argument ([if map_key:]): [None] and
    the empty string are false. *)
Definition provided (map_key : option string) : option string :=
  match map_key with
  | Some k => if PyStr.truthy k then Some k else None
  | None => None
  end.

Definition inline_code (s : string) : string := "`" ++ s ++ "`".

(** [proto_type.split('.')[-1]] *)
Definition simple_name (proto_type : string) : string :=
  last (PyStr.split "." proto_type) EmptyString.

Definition _format_type_for_docs
  (proto_type : string) (is_repeated : bool) (map_key : option string) : string :=
  let display_name := dict_get proto_type (simple_name proto_type) TYPE_MAP in
  let is_primitive :=
    dict_mem proto_type TYPE_MAP || PyStr.startswith "google.protobuf" proto_type in
  let label := inline_code display_name in
  let label :=
    if negb is_primitive
    then "[" ++ label ++ "](#" ++ PyStr.lower display_name ++ ")"
    else label in
  match provided map_key with
  | Some key =>
      let key_label := dict_get key key TYPE_MAP in
      "map of " ++ key_label ++ " to " ++ label
  | None =>
      if is_repeated then "array of " ++ label else label
  end.

(* ------------------------------------------------------------------ *)
(** ** The parsed tree ([proto_schema_parser.ast])

    Only the attributes the module reads are kept.  The [comments]
    attribute is the one [_attach_comments] sets; on a tree that comes from
    the parser it is absent, which [getattr(element, 'comments', [])] reads
    as the empty list. *)
(* ------------------------------------------------------------------ *)

(** An option of a field.  [option_value] is the value as text: the source
    reads it through [str], and strips the double quotes off it where the
    option is [json_name], whose value is a string literal kept with its
    quotes. *)
Record ProtoOption : Type := mkOption {
  option_name : string;
  option_value : string
}.

Inductive FieldCardinality : Type := REQUIRED | OPTIONAL | REPEATED.

(** [cardinality.value] *)
Definition cardinality_value (c : FieldCardinality) : string :=
  match c with
  | REQUIRED => "REQUIRED"
  | OPTIONAL => "OPTIONAL"
  | REPEATED => "REPEATED"
  end.

Record Field : Type := mkField {
  field_name : string;
  field_type : string;
  field_cardinality : option FieldCardinality;
  field_options : list ProtoOption;
  field_comments : list string
}.

Record MapField : Type := mkMapField {
  map_name : string;
  map_key_type : string;
  map_value_type : string;
  map_options : list ProtoOption;
  map_comments : list string
}.

Record MessageType : Type := mkMessageType {
  type_name : string;
  stream : bool
}.

#[local] Set Warnings "-register-all".

Inductive Element : Type :=
| Comment (text : string)
| Message (name : string) (elements : list Element) (comments : list string)
| Enum (name : string) (elements : list Element) (comments : list string)
| Service (name : string) (elements : list Element) (comments : list string)
| OneOf (name : string) (elements : list Element) (comments : list string)
| Method (name : string) (input_type output_type : MessageType)
         (elements : list Element) (comments : list string)
| EnumValue (name : string) (comments : list string)
| FieldElement (f : Field)
| MapFieldElement (m : MapField)
| OtherElement (comments : list string).

(** What [_process_field] is called on: a [Field] or a [MapField]. *)
Inductive FieldLike : Type :=
| IsField (f : Field)
| IsMapField (m : MapField).

(** The classes [_find_type] is asked for. *)
Inductive TargetClass : Type := MessageClass | EnumClass | ServiceClass.

Definition isinstance (el : Element) (cls : TargetClass) : bool :=
  match cls, el with
  | MessageClass, Message _ _ _ => true
  | EnumClass, Enum _ _ _ => true
  | ServiceClass, Service _ _ _ => true
  | _, _ => false
  end.

Definition is_comment (el : Element) : bool :=
  match el with Comment _ => true | _ => false end.

(** [getattr(el, 'name', None)] *)
Definition name_of (el : Element) : option string :=
  match el with
  | Message n _ _ | Enum n _ _ | Service n _ _ | OneOf n _ _
  | Method n _ _ _ _ | EnumValue n _ => Some n
  | FieldElement f => Some (field_name f)
  | MapFieldElement m => Some (map_name m)
  | Comment _ | OtherElement _ => None
  end.

(** The [elements] attribute, [None] where [hasattr(el, 'elements')] is false. *)
Definition elements_attr (el : Element) : option (list Element) :=
  match el with
  | Message _ els _ | Enum _ els _ | Service _ els _ | OneOf _ els _
  | Method _ _ _ els _ => Some els
  | _ => None
  end.

Definition elements_of (el : Element) : list Element :=
  match elements_attr el with Some els => els | None => [] end.

(** [getattr(el, 'comments', [])] *)
Definition comments_of (el : Element) : list string :=
  match el with
  | Message _ _ c | Enum _ _ c | Service _ _ c | OneOf _ _ c
  | Method _ _ _ _ c | EnumValue _ c | OtherElement c => c
  | FieldElement f => field_comments f
  | MapFieldElement m => map_comments m
  | Comment _ => []
  end.

Definition like_comments (field : FieldLike) : list string :=
  match field with
  | IsField f => field_comments f
  | IsMapField m => map_comments m
  end.

(* ------------------------------------------------------------------ *)
(** ** Helper functions *)
(* ------------------------------------------------------------------ *)

Definition reserved_markers : list string :=
  ["protolint:"; "--8<--"; "Next ID:"].

(** [s.startswith(tuple)] *)
Definition startswith_any (prefixes : list string) (s : string) : bool :=
  existsb (fun p => PyStr.startswith p s) prefixes.

(** The body of the loop of [_extract_comments] up to [combined]. *)
Definition clean_comment (comment : string) : string :=
  let text :=
    PyStr.removesuffix "*/"
      (PyStr.removeprefix "/*" (PyStr.removeprefix "//" (PyStr.strip comment))) in
  let lines :=
    map (fun line => PyStr.strip (PyStr.removeprefix "*" (PyStr.strip line)))
        (PyStr.splitlines text) in
  PyStr.join " " (filter PyStr.truthy lines).

Definition extract_step (cleaned_parts : list string) (comment : string) : list string :=
  let combined := clean_comment comment in
  if PyStr.truthy combined && negb (startswith_any reserved_markers combined)
  then (cleaned_parts ++ [combined])%list
  else cleaned_parts.

(** [_extract_comments(element)], on [raw_comments], the [comments]
    attribute of the element. *)
Definition _extract_comments (raw_comments : list string) : string :=
  let cleaned_parts := fold_left extract_step raw_comments [] in
  PyStr.join " " cleaned_parts.

(** The loop of [_attach_comments] over one list, [attach_one] being what
    is done to an element that is not a comment. *)
Definition attach_loop (attach_one : list string -> Element -> Element) :
  list string -> list Element -> list Element :=
  fix loop (buffer : list string) (elements : list Element) : list Element :=
    match elements with
    | [] => []
    | Comment text :: rest => Comment text :: loop (buffer ++ [text])%list rest
    | el :: rest => attach_one buffer el :: loop [] rest
    end.

(** [el.comments = buffer], then the recursive call on [el.elements]. *)
Fixpoint attach_element (buffer : list string) (el : Element) : Element :=
  match el with
  | Comment text => Comment text
  | Message n els _ => Message n (attach_loop attach_element [] els) buffer
  | Enum n els _ => Enum n (attach_loop attach_element [] els) buffer
  | Service n els _ => Service n (attach_loop attach_element [] els) buffer
  | OneOf n els _ => OneOf n (attach_loop attach_element [] els) buffer
  | Method n i o els _ => Method n i o (attach_loop attach_element [] els) buffer
  | EnumValue n _ => EnumValue n buffer
  | FieldElement f =>
      FieldElement (mkField (field_name f) (field_type f) (field_cardinality f)
                            (field_options f) buffer)
  | MapFieldElement m =>
      MapFieldElement (mkMapField (map_name m) (map_key_type m) (map_value_type m)
                                  (map_options m) buffer)
  | OtherElement _ => OtherElement buffer
  end.

(** [_attach_comments(elements)]: the tree is updated in place in the
    source; here the updated tree is returned. *)
Definition _attach_comments (elements : list Element) : list Element :=
  attach_loop attach_element [] elements.

(** The first result of [f] along a list: a loop that returns from inside. *)
Definition first_found {A B : Type} (f : A -> option B) : list A -> option B :=
  fix loop (l : list A) : option B :=
    match l with
    | [] => None
    | x :: rest =>
        match f x with
        | Some y => Some y
        | None => loop rest
        end
    end.

Definition name_is (name : string) (el : Element) : bool :=
  match name_of el with
  | Some n => String.eqb n name
  | None => false
  end.

(** One turn of the loop of [_find_type]. *)
Fixpoint find_in_element (name : string) (target_cls : TargetClass) (el : Element)
  : option Element :=
  if name_is name el && isinstance el target_cls then Some el
  else match el with
       | Message _ els _ => first_found (find_in_element name target_cls) els
       | _ => None
       end.

Definition _find_type (elements : list Element) (name : string)
  (target_cls : TargetClass) : option Element :=
  first_found (find_in_element name target_cls) elements.

Definition _snake_to_camel_case (snake_str : string) : string :=
  let components := PyStr.split "_" snake_str in
  hd EmptyString components ++ PyStr.join "" (map PyStr.title (tl components)).

Definition like_options (field : FieldLike) : list ProtoOption :=
  match field with
  | IsField f => field_options f
  | IsMapField m => map_options m
  end.

Definition like_name (field : FieldLike) : string :=
  match field with
  | IsField f => field_name f
  | IsMapField m => map_name m
  end.

(** [cardinality]: the value of the cardinality when the field has one. *)
Definition like_cardinality (field : FieldLike) : option string :=
  match field with
  | IsField f => option_map cardinality_value (field_cardinality f)
  | IsMapField _ => None
  end.

(** [cardinality == s] *)
Definition cardinality_is (s : string) (cardinality : option string) : bool :=
  match cardinality with
  | Some v => String.eqb v s
  | None => false
  end.

(** [next((o.value.strip(dquote) for o in options if o.name == 'json_name'), None)] *)
Definition json_name_of (options : list ProtoOption) : option string :=
  match find (fun o => String.eqb (option_name o) "json_name") options with
  | Some o => Some (PyStr.strip_char PyStr.dquote (option_value o))
  | None => None
  end.

(** [x or y] for an optional string [x]. *)
Definition or_else (x : option string) (y : string) : string :=
  match x with
  | Some s => if PyStr.truthy s then s else y
  | None => y
  end.

Definition has_required_behavior (options : list ProtoOption) : bool :=
  existsb (fun opt => PyStr.contains "REQUIRED" (option_value opt))
          (filter (fun opt => PyStr.contains "field_behavior" (option_name opt)) options).

Definition display_name_of (field : FieldLike) : string :=
  or_else (json_name_of (like_options field)) (_snake_to_camel_case (like_name field)).

Definition type_str_of (field : FieldLike) : string :=
  let is_repeated := cardinality_is "REPEATED" (like_cardinality field) in
  match field with
  | IsMapField m =>
      _format_type_for_docs (map_value_type m) is_repeated (Some (map_key_type m))
  | IsField f =>
      _format_type_for_docs (field_type f) is_repeated None
  end.

Definition req_val_of (field : FieldLike) (is_oneof : bool) : string :=
  if is_oneof then "Optional (OneOf)"
  else if cardinality_is "REQUIRED" (like_cardinality field)
          || has_required_behavior (like_options field)
       then "Yes"
       else "No".

Definition _process_field (field : FieldLike) (is_oneof : bool) : list string :=
  let display_name := display_name_of field in
  let type_str := type_str_of field in
  let req_val := req_val_of field is_oneof in
  let desc := _extract_comments (like_comments field) in
  [inline_code display_name; type_str; req_val; desc].

(* ------------------------------------------------------------------ *)
(** ** The macros *)
(* ------------------------------------------------------------------ *)

(** Exceptions, by what the handlers tell apart: [FileNotFoundError] and
    every other [Exception]; each carries its message, [str(e)]. *)
Inductive exn : Type :=
| FileNotFoundError (msg : string)
| OtherException (msg : string).

Definition exn_str (e : exn) : string :=
  match e with
  | FileNotFoundError msg | OtherException msg => msg
  end.

Inductive result (A : Type) : Type :=
| Return (a : A)
| Raise (e : exn).

Arguments Return {A} a.
Arguments Raise {A} e.

Definition newline : string := String PyStr.LF EmptyString.

(** The dict [oneof_groups], in insertion order:
    [d.setdefault(key, []).append(v)]. *)
Fixpoint setdefault_append (key v : string) (d : list (string * list string))
  : list (string * list string) :=
  match d with
  | [] => [(key, [v])]
  | (k, vs) :: rest =>
      if String.eqb k key then (k, (vs ++ [v])%list) :: rest
      else (k, vs) :: setdefault_append key v rest
  end.

Definition CollectState : Type := (list (list string) * list (string * list string))%type.

(** The inner loop of [proto_to_table], over the members of one [OneOf]. *)
Definition collect_oneof_member (group_name : string) (st : CollectState)
  (oneof_el : Element) : CollectState :=
  let (rows, oneof_groups) := st in
  match oneof_el with
  | FieldElement f =>
      let row := _process_field (IsField f) true in
      ((rows ++ [row])%list,
       setdefault_append group_name
         (PyStr.strip_char PyStr.backtick (nth 0 row EmptyString)) oneof_groups)
  | _ => st
  end.

(** The outer loop of [proto_to_table], over the elements of the message. *)
Definition collect_element (st : CollectState) (el : Element) : CollectState :=
  let (rows, oneof_groups) := st in
  match el with
  | FieldElement f => ((rows ++ [_process_field (IsField f) false])%list, oneof_groups)
  | MapFieldElement m =>
      ((rows ++ [_process_field (IsMapField m) false])%list, oneof_groups)
  | OneOf group_name els _ => fold_left (collect_oneof_member group_name) els st
  | _ => st
  end.

Definition collect_rows (elements : list Element) : CollectState :=
  fold_left collect_element elements ([], []).

Definition oneof_note (message_name : string) (fields : list string) : string :=
  let field_list := PyStr.join ", " (map inline_code fields) in
  "**Note:** A `" ++ message_name
    ++ "` MUST contain exactly one of the following: " ++ field_list.

Definition note_step (message_name : string) (output : list string)
  (item : string * list string) : list string :=
  let (_, fields) := item in
  if Nat.ltb 1 (List.length fields)
  then (output ++ [oneof_note message_name fields])%list
  else output.

Definition message_headers : list string :=
  ["Field"; "Type"; "Required"; "Description"].
Definition enum_headers : list string := ["Value"; "Description"].
Definition service_headers : list string :=
  ["Method"; "Request"; "Response"; "Description"].

Definition not_found (kind name : string) : string :=
  "**Error:** " ++ kind ++ " `" ++ name ++ "` not found.".

Definition error_string (e : exn) : string := "**Error:** " ++ exn_str e.

Definition stream_prefix (t : MessageType) (s : string) : string :=
  if stream t then "stream " ++ s else s.

Definition method_row (name : string) (input_type output_type : MessageType)
  (comments : list string) : list string :=
  let req_str := _format_type_for_docs (type_name input_type) false None in
  let req_str := stream_prefix input_type req_str in
  let res_str := _format_type_for_docs (type_name output_type) false None in
  let res_str := stream_prefix output_type res_str in
  [inline_code name; req_str; res_str; _extract_comments comments].

Definition service_step (rows : list (list string)) (el : Element) : list (list string) :=
  match el with
  | Method n i o _ c => (rows ++ [method_row n i o c])%list
  | _ => rows
  end.

(** [[f'`{e.name}`', _extract_comments(e)] for e in el.elements
     if isinstance(e, EnumValue)] *)
Fixpoint enum_rows (elements : list Element) : list (list string) :=
  match elements with
  | [] => []
  | EnumValue n c :: rest => [inline_code n; _extract_comments c] :: enum_rows rest
  | _ :: rest => enum_rows rest
  end.

Section Macros.

(** The text of the file at the given path under the parent of
    [docs_dir]; [None] when the path does not exist. *)
Variable source_text : string -> option string.

(** [Parser().parse]: the top-level elements, or the exception it raises. *)
Variable Parser_parse : string -> result (list Element).

(** [tabulate(rows, headers, tablefmt='github')] *)
Variable tabulate : list (list string) -> list string -> string.

Definition _parse_proto (file_path : string) : result (list Element) :=
  match source_text file_path with
  | None => Raise (FileNotFoundError ("Proto not found: " ++ file_path))
  | Some text =>
      match Parser_parse text with
      | Raise e => Raise e
      | Return file_elements => Return (_attach_comments file_elements)
      end
  end.

(** The lines of a message table, joined by the macro with newlines. *)
Definition message_output (message_name : string) (target_message : Element)
  (rows : list (list string)) (oneof_groups : list (string * list string))
  : list string :=
  let output := [] in
  let msg_desc := _extract_comments (comments_of target_message) in
  let output :=
    if PyStr.truthy msg_desc then (output ++ [msg_desc; ""])%list else output in
  let output := (output ++ [tabulate rows message_headers])%list in
  match oneof_groups with
  | [] => output
  | _ :: _ => fold_left (note_step message_name) oneof_groups (output ++ [""])%list
  end.

Definition proto_to_table (message_name proto_file : string) : result string :=
  match _parse_proto proto_file with
  | Raise (FileNotFoundError msg) => Return (error_string (FileNotFoundError msg))
  | Raise e => Raise e
  | Return elements =>
      match _find_type elements message_name MessageClass with
      | None => Return (not_found "Message" message_name)
      | Some target_message =>
          let (rows, oneof_groups) := collect_rows (elements_of target_message) in
          match rows with
          | [] => Return "None"
          | _ :: _ =>
              Return (PyStr.join newline
                        (message_output message_name target_message rows oneof_groups))
          end
      end
  end.

(** [try: ... except Exception as e: return f'**Error:** {e}'] *)
Definition catch_all (body : result string) : result string :=
  match body with
  | Return s => Return s
  | Raise e => Return (error_string e)
  end.

Definition proto_enum_to_table (enum_name proto_file : string) : result string :=
  catch_all
    match _parse_proto proto_file with
    | Raise e => Raise e
    | Return elements =>
        match _find_type elements enum_name EnumClass with
        | None => Return (not_found "Enum" enum_name)
        | Some el =>
            let rows := enum_rows (elements_of el) in
            Return (_extract_comments (comments_of el) ++ newline ++ newline
                      ++ tabulate rows enum_headers)
        end
    end.

Definition proto_service_to_table (service_name proto_file : string) : result string :=
  catch_all
    match _parse_proto proto_file with
    | Raise e => Raise e
    | Return elements =>
        match _find_type elements service_name ServiceClass with
        | None => Return (not_found "Service" service_name)
        | Some service =>
            let rows := fold_left service_step (elements_of service) [] in
            match rows with
            | [] => Return "None"
            | _ :: _ => Return (tabulate rows service_headers)
            end
        end
    end.

End Macros.

(* ------------------------------------------------------------------ *)
(** ** Specification-side definitions *)
(* ------------------------------------------------------------------ *)

(** The label of a type on its own: no [array of], no [map of]. *)
Definition type_label (proto_type : string) : string :=
  _format_type_for_docs proto_type false None.

(** A Markdown link to the heading of a type, by its simple name. *)
Definition markdown_link (simple : string) : string :=
  "[" ++ inline_code simple ++ "](#" ++ PyStr.lower simple ++ ")".

(** The display of a map key: the primitive-name substitution, the name
    itself where the table has no entry; no backticks, no link. *)
Definition key_display (key_type : string) : string :=
  dict_get key_type key_type TYPE_MAP.

(** The type string the specification gives to a map field. *)
Definition map_type_string (key_type value_type : string) : string :=
  "map of " ++ key_display key_type ++ " to " ++ type_label value_type.

(** The cells of a row. *)
Definition name_cell (row : list string) : string := nth 0 row EmptyString.
Definition type_cell (row : list string) : string := nth 1 row EmptyString.
Definition required_cell (row : list string) : string := nth 2 row EmptyString.
Definition description_cell (row : list string) : string := nth 3 row EmptyString.

(** A field option under a [field_behavior] name whose value mentions
    [REQUIRED]. *)
Definition required_behavior_option (opt : ProtoOption) : Prop :=
  PyStr.contains "field_behavior" (option_name opt) = true /\
  PyStr.contains "REQUIRED" (option_value opt) = true.

(** The cardinality annotation of a field, [None] for a map field. *)
Definition cardinality_annotation (field : FieldLike) : option FieldCardinality :=
  match field with
  | IsField f => field_cardinality f
  | IsMapField _ => None
  end.

Definition marked_required (field : FieldLike) : Prop :=
  cardinality_annotation field = Some REQUIRED \/
  exists opt, In opt (like_options field) /\ required_behavior_option opt.

(** [o.name == 'json_name'] *)
Definition is_json_name (o : ProtoOption) : bool :=
  String.eqb (option_name o) "json_name".

(** The character [c] occurs in [s]. *)
Fixpoint has_char (c : ascii) (s : string) : bool :=
  match s with
  | EmptyString => false
  | String a r => Ascii.eqb a c || has_char c r
  end.

Definition underscore : ascii := ascii_of_nat 95.

(** The camelCase name of the specification, from the segments of the
    declared name: the first as it is, every other one through [title]. *)
Definition camel_of_segments (segments : list string) : string :=
  hd EmptyString segments ++ PyStr.join "" (map PyStr.title (tl segments)).

(** A string between two double quotes. *)
Definition quoted (s : string) : string :=
  String PyStr.dquote (s ++ String PyStr.dquote EmptyString).




(** A cleaned comment survives when it is not empty and does not begin
    with a reserved marker. *)
Definition survives (cleaned : string) : bool :=
  PyStr.truthy cleaned && negb (startswith_any reserved_markers cleaned).

(** The texts of the comments a list begins with. *)
Fixpoint leading_comment_texts (elements : list Element) : list string :=
  match elements with
  | Comment text :: rest => text :: leading_comment_texts rest
  | _ => []
  end.

(** The contiguous run of comments a list ends with, in order: what
    immediately precedes the element that comes next. *)
Definition preceding_run (before : list Element) : list string :=
  rev (leading_comment_texts (rev before)).

(** The buffer of [_attach_comments] after one element, and after a list. *)
Definition buffer_step (buffer : list string) (el : Element) : list string :=
  match el with
  | Comment text => (buffer ++ [text])%list
  | _ => []
  end.

Definition buffer_after (buffer : list string) (elements : list Element) : list string :=
  fold_left buffer_step elements buffer.

(** An element of the class with the name, at any depth of the tree. *)
Fixpoint declares (name : string) (cls : TargetClass) (el : Element) : bool :=
  (name_is name el && isinstance el cls)
  || match el with
     | Message _ els _ | Enum _ els _ | Service _ els _ | OneOf _ els _
     | Method _ _ _ els _ => existsb (declares name cls) els
     | _ => false
     end.

(** The name is declared nowhere in the file for the class. *)
Definition absent (name : string) (cls : TargetClass) (file_elements : list Element) : Prop :=
  existsb (declares name cls) file_elements = false.

(** The fields among the members of a oneof group. *)
Fixpoint member_fields (members : list Element) : list Field :=
  match members with
  | [] => []
  | FieldElement f :: rest => f :: member_fields rest
  | _ :: rest => member_fields rest
  end.

(** The rows of a oneof group: one for each of its fields. *)
Definition oneof_rows (members : list Element) : list (list string) :=
  map (fun f => _process_field (IsField f) true) (member_fields members).

(** The rows a direct child of a message gives. *)
Definition rows_of_element (el : Element) : list (list string) :=
  match el with
  | FieldElement f => [_process_field (IsField f) false]
  | MapFieldElement m => [_process_field (IsMapField m) false]
  | OneOf _ members _ => oneof_rows members
  | _ => []
  end.

(** The direct child of a message gives a row. *)
Definition produces_row (el : Element) : bool :=
  match el with
  | FieldElement _ | MapFieldElement _ => true
  | OneOf _ members _ =>
      existsb (fun m => match m with FieldElement _ => true | _ => false end) members
  | _ => false
  end.

Definition is_method (el : Element) : bool :=
  match el with Method _ _ _ _ _ => true | _ => false end.

(** The name recorded for a member of a oneof group: the name cell of its
    row with the backticks at both ends stripped. *)
Definition recorded_name (f : Field) : string :=
  PyStr.strip_char PyStr.backtick (name_cell (_process_field (IsField f) true)).

(** The names recorded under a group name, along the children of a
    message: the fields of every oneof group of that name, in order. *)
Definition recorded_members (group_name : string) (elements : list Element) : list string :=
  flat_map
    (fun el =>
       match el with
       | OneOf n members _ =>
           if String.eqb n group_name
           then map recorded_name (member_fields members)
           else []
       | _ => []
       end)
    elements.

(** The lines after the table: none when no group was recorded, else an
    empty line and one note for every group with more than one member. *)
Definition notes_section (message_name : string) (oneof_groups : list (string * list string))
  : list string :=
  match oneof_groups with
  | [] => []
  | _ :: _ =>
      EmptyString ::
        map (oneof_note message_name)
            (filter (fun fields => Nat.ltb 1 (List.length fields)) (map snd oneof_groups))
  end.

(** The lines before the table: the description and an empty line, or
    nothing when the description is empty. *)
Definition description_lines (target : Element) : list string :=
  let msg_desc := _extract_comments (comments_of target) in
  if PyStr.truthy msg_desc then [msg_desc; EmptyString] else [].

Definition starts_with_char (c : ascii) (s : string) : bool :=
  match s with
  | String a _ => Ascii.eqb c a
  | EmptyString => false
  end.

Fixpoint ends_with_char (c : ascii) (s : string) : bool :=
  match s with
  | EmptyString => false
  | String a EmptyString => Ascii.eqb c a
  | String _ r => ends_with_char c r
  end.

(** Induction on the tree: a property that holds of an element whenever it
    holds of its nested elements holds of every element. *)
Fixpoint Element_deep_ind (P : Element -> Prop)
  (step : forall el, Forall P (elements_of el) -> P el) (el : Element) {struct el} : P el :=
  let all :=
    fix all (els : list Element) : Forall P els :=
      match els with
      | [] => Forall_nil P
      | x :: rest => Forall_cons x (Element_deep_ind P step x) (all rest)
      end in
  step el
    match el return Forall P (elements_of el) with
    | Message _ els _ | Enum _ els _ | Service _ els _ | OneOf _ els _
    | Method _ _ _ els _ => all els
    | _ => Forall_nil P
    end.

(** The dict after the names of one group have been appended in turn. *)
Definition record_all (group_name : string) (names : list string)
  (d : list (string * list string)) : list (string * list string) :=
  fold_left (fun d v => setdefault_append group_name v d) names d.

(** The dict after one direct child of the message. *)
Definition record_element (d : list (string * list string)) (el : Element)
  : list (string * list string) :=
  match el with
  | OneOf n members _ => record_all n (map recorded_name (member_fields members)) d
  | _ => d
  end.

(** What the loops keep true of the dict: no key twice, no empty list. *)
Definition well_grouped (d : list (string * list string)) : Prop :=
  NoDup (map fst d) /\ Forall (fun kv => snd kv <> []) d.

(** The rows of the methods among the elements of a service. *)
Definition method_rows (elements : list Element) : list (list string) :=
  flat_map
    (fun el =>
       match el with
       | Method n i o _ c => [method_row n i o c]
       | _ => []
       end)
    elements.

Definition is_enum_value (el : Element) : bool :=
  match el with EnumValue _ _ => true | _ => false end.

(* ------------------------------------------------------------------ *)
(** ** A sample file, for the examples *)
(* ------------------------------------------------------------------ *)

(** A stand-in for [tabulate]: one line for the headers and one for every
    row, the cells separated by bars. *)
Definition sample_tabulate (rows : list (list string)) (headers : list string) : string :=
  PyStr.join newline (map (PyStr.join " | ") (headers :: rows)).

Definition sample_file : list Element :=
  [ Comment "// A request.";
    Message "Msg"
      [ Comment "// The identifier.";
        FieldElement (mkField "task_id" "string" None
                        [mkOption "(google.api.field_behavior)" "REQUIRED"] []);
        MapFieldElement (mkMapField "labels" "string" "int32" [] []);
        OneOf "choice"
          [ FieldElement (mkField "x" "string" None [] []);
            Comment "// The other one.";
            FieldElement (mkField "y_z" "a2a.v1.Part" None [] []) ] [];
        OneOf "single"
          [ FieldElement (mkField "only" "bool" None [] []) ] [];
        Comment "// Next ID: 6" ] [];
    Message "Empty" [ Comment "// nothing here" ] [];
    Enum "State" [ EnumValue "STATE_UNSPECIFIED" []; Comment "// Done."; EnumValue "DONE" [] ] [];
    Enum "Bare" [] [];
    Service "Tasks"
      [ Comment "// Sends.";
        Method "Send" (mkMessageType "Msg" false) (mkMessageType "google.protobuf.Empty" true) [] [] ] [];
    Service "Idle" [] [] ].

Definition sample_source (file_path : string) : option string :=
  if String.eqb file_path "specification/a2a.proto" then Some "syntax = proto3;"
  else if String.eqb file_path "broken.proto" then Some "message {"
  else None.

Definition sample_parse (text : string) : result (list Element) :=
  if String.eqb text "syntax = proto3;" then Return sample_file
  else Raise (OtherException "syntax error").

(** A file whose oneof group has a member with a backtick at the head of
    its JSON name. *)
Definition ticked_field : Field :=
  mkField "x" "string" None [mkOption "json_name" (quoted "`x")] [].

Definition ticked_file : list Element :=
  [ Message "Msg"
      [ OneOf "choice"
          [ FieldElement ticked_field;
            FieldElement (mkField "y" "string" None [] []) ] [] ] [] ].

(** Every character of the string is a lower-case letter. *)
Fixpoint all_lower (s : string) : bool :=
  match s with
  | EmptyString => true
  | String c r => PyStr.is_lower c && all_lower r
  end.

(** The test of [_find_type] on one element. *)
Definition matches (name : string) (cls : TargetClass) (el : Element) : bool :=
  name_is name el && isinstance el cls.

(** What [_find_type] looks at, in the order it does: an element, then,
    when it is a message, what it looks at in each of its children. *)
Fixpoint scope_of (el : Element) : list Element :=
  el :: match el with
        | Message _ els _ => flat_map scope_of els
        | _ => []
        end.

Definition search_scope (elements : list Element) : list Element :=
  flat_map scope_of elements.

(** The texts of the comments of a list, in order. *)
Definition comment_texts (elements : list Element) : list string :=
  flat_map (fun el => match el with Comment text => [text] | _ => [] end) elements.

(** What the locator finds after the comments are attached, against what
    it finds before: nothing, or the same element with comments attached. *)
Definition attached_result (raw attached : option Element) : Prop :=
  match raw with
  | None => attached = None
  | Some r => exists buffer, attached = Some (attach_element buffer r)
  end.

(** Some character of the string satisfies [p]. *)
Fixpoint any_char (p : ascii -> bool) (s : string) : bool :=
  match s with
  | EmptyString => false
  | String c r => p c || any_char p r
  end.

(** The number of occurrences of a character. *)
Fixpoint count_char (c : ascii) (s : string) : nat :=
  match s with
  | EmptyString => 0
  | String a r => (if Ascii.eqb a c then 1 else 0) + count_char c r
  end.

Definition total_length (parts : list string) : nat :=
  fold_right (fun part n => String.length part + n) 0 parts.

(** The names of a list, each kept where it first occurs; [seen] holds the
    names met before. *)
Fixpoint first_occurrences (seen names : list string) : list string :=
  match names with
  | [] => []
  | k :: rest =>
      if existsb (String.eqb k) seen then first_occurrences seen rest
      else k :: first_occurrences (seen ++ [k]) rest
  end.

(** The names of the oneof groups of a message that hold a field, in
    declaration order, a name as often as it is declared. *)
Definition group_names (elements : list Element) : list string :=
  flat_map
    (fun el =>
       match el with
       | OneOf n members _ =>
           match member_fields members with
           | [] => []
           | _ :: _ => [n]
           end
       | _ => []
       end)
    elements.

(** The key types the grammar of protocol buffers allows in a map field:
    what the parser puts in [key_type]. *)
Definition map_key_types : list string :=
  [ "int32"; "int64"; "uint32"; "uint64"; "sint32"; "sint64";
    "fixed32"; "fixed64"; "sfixed32"; "sfixed64"; "bool"; "string" ].


(* ------------------------------------------------------------------ *)
(** ** Properties: the type-string formatter *)
(* ------------------------------------------------------------------ *)

Lemma truthy_nonempty (s : string) : s <> EmptyString -> PyStr.truthy s = true.
Proof. destruct s; [congruence | reflexivity]. Qed.

Lemma provided_nonempty (k : string) : k <> EmptyString -> provided (Some k) = Some k.
Proof. intros H. unfold provided. now rewrite truthy_nonempty. Qed.

Lemma format_with_key (proto_type key : string) (is_repeated : bool) :
  key <> EmptyString ->
  _format_type_for_docs proto_type is_repeated (Some key)
  = map_type_string key proto_type.
Proof.
  intros Hkey. unfold map_type_string, type_label, key_display, _format_type_for_docs.
  rewrite (provided_nonempty key Hkey). reflexivity.
Qed.

Lemma format_repeated (proto_type : string) :
  _format_type_for_docs proto_type true None = "array of " ++ type_label proto_type.
Proof. reflexivity. Qed.

Example format_int32 : _format_type_for_docs "int32" false None = "`integer`".
Proof. reflexivity. Qed.

Example format_repeated_message :
  _format_type_for_docs "a2a.v1.Foo" true None = "array of [`Foo`](#foo)".
Proof. reflexivity. Qed.

Example format_map_string_int32 :
  _format_type_for_docs "int32" false (Some "string") = "map of string to `integer`".
Proof. reflexivity. Qed.

Lemma map_key_types_not_empty :
  Forall (fun key_type => key_type <> EmptyString) map_key_types.
Proof. repeat constructor; discriminate. Qed.

(** C1: a map field has the type string [map of <key> to <label>], the key
    shown by the primitive-name table (itself where the table has no entry),
    bare, with no backticks and no link, the label being the one of the value
    type; and with a key the formatter wraps as a map whatever the repeated
    flag is.  The key type of a map field is one the grammar allows, so it is
    never the empty string, which the formatter would read as no key. *)
Theorem map_field_type_string :
  forall (m : MapField) (is_oneof : bool),
    map_key_type m <> EmptyString ->
    type_cell (_process_field (IsMapField m) is_oneof)
      = "map of " ++ dict_get (map_key_type m) (map_key_type m) TYPE_MAP
          ++ " to " ++ type_label (map_value_type m)
    /\ (forall is_repeated : bool,
          _format_type_for_docs (map_value_type m) is_repeated (Some (map_key_type m))
          = "map of " ++ dict_get (map_key_type m) (map_key_type m) TYPE_MAP
              ++ " to " ++ type_label (map_value_type m))
    /\ (forall (key_type value_type : string) (is_repeated : bool),
          In key_type map_key_types ->
          _format_type_for_docs value_type is_repeated (Some key_type)
          = "map of " ++ dict_get key_type key_type TYPE_MAP
              ++ " to " ++ type_label value_type).
Proof.
  intros m is_oneof Hkey. split; [|split].
  - unfold type_cell, _process_field, type_str_of. cbn [nth].
    now rewrite format_with_key.
  - intros is_repeated. now rewrite format_with_key.
  - intros key_type value_type is_repeated Hin.
    pose proof map_key_types_not_empty as Hall. rewrite Forall_forall in Hall.
    now rewrite (format_with_key _ _ _ (Hall key_type Hin)).
Qed.

Lemma map_field_type_string_witness :
  type_cell (_process_field (IsMapField (mkMapField "labels" "string" "int32" [] [])) false)
  = "map of string to `integer`"
  /\ _format_type_for_docs "int32" true (Some "string") = "map of string to `integer`".
Proof.
  destruct (map_field_type_string (mkMapField "labels" "string" "int32" [] []) false)
    as (Hcell & Hfmt & _); [discriminate|].
  split; [exact Hcell | exact (Hfmt true)].
Defined.

(** C2, as amended: a type name is rendered in inline code with no link
    exactly when it is in the primitive table or begins with
    [google.protobuf]; every other name is rendered as a Markdown link, the
    label its simple name in inline code, the anchor the simple name in
    lower case. *)
Theorem type_label_link_rule :
  forall proto_type : string,
    type_label proto_type
    = (if dict_mem proto_type TYPE_MAP
          || PyStr.startswith "google.protobuf" proto_type
       then inline_code (dict_get proto_type (simple_name proto_type) TYPE_MAP)
       else "[" ++ inline_code (simple_name proto_type) ++ "](#"
              ++ PyStr.lower (simple_name proto_type) ++ ")")
    /\ PyStr.startswith "[" (type_label proto_type)
       = negb (dict_mem proto_type TYPE_MAP
               || PyStr.startswith "google.protobuf" proto_type).
Proof.
  intros proto_type.
  unfold type_label, _format_type_for_docs, dict_mem, dict_get, provided.
  destruct (dict_lookup proto_type TYPE_MAP) as [v|]; [split; reflexivity|].
  rewrite orb_false_l.
  destruct (PyStr.startswith "google.protobuf" proto_type); split; reflexivity.
Qed.

(** C2 as stated fails on [google.protobuf.Any]: the name is not in the
    table, and it is rendered with no link. *)
Lemma well_known_prefix_unlinked :
  dict_mem "google.protobuf.Any" TYPE_MAP = false
  /\ type_label "google.protobuf.Any" = "`Any`"
  /\ markdown_link (simple_name "google.protobuf.Any") = "[`Any`](#any)"
  /\ type_label "google.protobuf.Any" <> markdown_link (simple_name "google.protobuf.Any").
Proof. repeat split. discriminate. Qed.

(* ------------------------------------------------------------------ *)
(** ** Properties: the rows of fields *)
(* ------------------------------------------------------------------ *)

Lemma cardinality_is_required (field : FieldLike) :
  cardinality_is "REQUIRED" (like_cardinality field) = true
  <-> cardinality_annotation field = Some REQUIRED.
Proof.
  destruct field as [f|m]; cbn.
  - destruct (field_cardinality f) as [[| |]|]; cbn; split; congruence.
  - split; congruence.
Qed.

Lemma has_required_behavior_spec (options : list ProtoOption) :
  has_required_behavior options = true
  <-> exists opt, In opt options /\ required_behavior_option opt.
Proof.
  unfold has_required_behavior, required_behavior_option.
  rewrite existsb_exists. split.
  - intros (opt & Hin & Hval). apply filter_In in Hin. destruct Hin as [Hin Hname].
    exists opt. auto.
  - intros (opt & Hin & Hname & Hval). exists opt. split; [|exact Hval].
    apply filter_In. auto.
Qed.

Lemma marked_required_spec (field : FieldLike) :
  cardinality_is "REQUIRED" (like_cardinality field)
    || has_required_behavior (like_options field) = true
  <-> marked_required field.
Proof.
  unfold marked_required.
  rewrite orb_true_iff, cardinality_is_required, has_required_behavior_spec.
  reflexivity.
Qed.

(** C5: the requiredness cell of a oneof member is [Optional (OneOf)]
    whatever its annotations; of any other field it is [Yes] exactly when
    the cardinality is [REQUIRED] or an option whose name contains
    [field_behavior] has a value containing [REQUIRED], and [No] otherwise. *)
Theorem required_cell_rule :
  forall field : FieldLike,
    required_cell (_process_field field true) = "Optional (OneOf)"
    /\ (required_cell (_process_field field false) = "Yes" <-> marked_required field)
    /\ (required_cell (_process_field field false) = "No" <-> ~ marked_required field).
Proof.
  intros field. split; [reflexivity|].
  unfold required_cell, _process_field, req_val_of. cbn [nth].
  rewrite <- marked_required_spec.
  destruct (cardinality_is "REQUIRED" (like_cardinality field)
            || has_required_behavior (like_options field)).
  - split; split; intros H; try reflexivity; try discriminate.
    exfalso. apply H. reflexivity.
  - split; split; intros H; try reflexivity; try discriminate.
Qed.

Lemma split_no_separator (sep : ascii) (s : string) :
  has_char sep s = false -> PyStr.split sep s = [s].
Proof.
  induction s as [|a r IH]; cbn; [reflexivity|].
  intros H. apply orb_false_iff in H. destruct H as [Ha Hr].
  rewrite Ha, (IH Hr). reflexivity.
Qed.

Lemma split_at_separator (sep : ascii) (a b : string) :
  has_char sep a = false ->
  PyStr.split sep (a ++ String sep b) = a :: PyStr.split sep b.
Proof.
  induction a as [|c a' IH]; cbn.
  - intros _. now rewrite Ascii.eqb_refl.
  - intros H. apply orb_false_iff in H. destruct H as [Hc Ha'].
    rewrite Hc, (IH Ha'). reflexivity.
Qed.

Lemma join_cons (sep x y : string) (rest : list string) :
  PyStr.join sep (x :: y :: rest) = x ++ sep ++ PyStr.join sep (y :: rest).
Proof. reflexivity. Qed.

(** Splitting at a separator undoes joining with it, when no segment holds
    the separator. *)
Lemma split_join (sep : ascii) (first : string) (rest : list string) :
  Forall (fun s => has_char sep s = false) (first :: rest) ->
  PyStr.split sep (PyStr.join (String sep EmptyString) (first :: rest)) = first :: rest.
Proof.
  revert first. induction rest as [|y rest IH]; intros first H; inversion H; subst.
  - cbn. now apply split_no_separator.
  - rewrite join_cons.
    change (String sep EmptyString ++ PyStr.join (String sep EmptyString) (y :: rest))
      with (String sep (PyStr.join (String sep EmptyString) (y :: rest))).
    rewrite split_at_separator by assumption.
    now rewrite IH.
Qed.

Lemma snake_to_camel_segments (first : string) (rest : list string) :
  Forall (fun s => has_char underscore s = false) (first :: rest) ->
  _snake_to_camel_case (PyStr.join "_" (first :: rest))
  = camel_of_segments (first :: rest).
Proof.
  intros H. unfold _snake_to_camel_case, camel_of_segments.
  change "_"%char with underscore.
  change "_" with (String underscore EmptyString).
  now rewrite split_join.
Qed.

Lemma lower_not_upper (c : ascii) : PyStr.is_lower c = true -> PyStr.is_upper c = false.
Proof.
  unfold PyStr.is_lower, PyStr.is_upper, PyStr.between.
  rewrite andb_true_iff, andb_false_iff, !Nat.leb_le, !Nat.leb_gt. lia.
Qed.

Lemma title_inside_word (r : string) :
  all_lower r = true -> PyStr.title_from true r = r.
Proof.
  induction r as [|c r IH]; cbn [all_lower PyStr.title_from]; [reflexivity|].
  intros H. apply andb_true_iff in H. destruct H as [Hc Hr].
  unfold PyStr.is_cased, PyStr.to_lower.
  rewrite Hc, (lower_not_upper c Hc), orb_true_r, (IH Hr). reflexivity.
Qed.

(** [title] on a word of lower-case letters: the first letter in upper
    case, the others as they are. *)
Lemma title_lower_word (c : ascii) (r : string) :
  PyStr.is_lower c = true -> all_lower r = true ->
  PyStr.title (String c r) = String (PyStr.to_upper c) r.
Proof.
  intros Hc Hr. unfold PyStr.title. cbn [PyStr.title_from].
  unfold PyStr.is_cased. rewrite Hc, orb_true_r, (title_inside_word r Hr). reflexivity.
Qed.

Lemma find_first_json_name (before after : list ProtoOption) (o : ProtoOption) :
  Forall (fun x => is_json_name x = false) before ->
  is_json_name o = true ->
  find is_json_name (before ++ o :: after) = Some o.
Proof.
  intros Hb Ho. induction Hb as [|x before Hx _ IH]; cbn.
  - now rewrite Ho.
  - now rewrite Hx.
Qed.

Lemma find_no_json_name (options : list ProtoOption) :
  Forall (fun x => is_json_name x = false) options ->
  find is_json_name options = None.
Proof.
  intros H. induction H as [|x l Hx _ IH]; cbn; [reflexivity|]. now rewrite Hx.
Qed.

(** C8, as amended: the name cell is the display name in inline code; the
    display name is the value of the first [json_name] option with the
    double quotes around it stripped, when there is such an option and the
    stripped value is not empty; it is the camelCase form of the declared
    name when no option is named [json_name], and also when the stripped
    value is empty.  The camelCase form of a name made of segments joined by
    underscores is the first segment as it is followed by every other
    segment through [title], with no separator; [title] puts the first
    letter of a word of lower-case letters in upper case. *)
Theorem display_name_rule :
  forall (field : FieldLike) (is_oneof : bool),
    name_cell (_process_field field is_oneof) = inline_code (display_name_of field)
    /\ (forall before o after,
          like_options field = (before ++ o :: after)%list ->
          Forall (fun x => is_json_name x = false) before ->
          is_json_name o = true ->
          display_name_of field =
            if PyStr.truthy (PyStr.strip_char PyStr.dquote (option_value o))
            then PyStr.strip_char PyStr.dquote (option_value o)
            else _snake_to_camel_case (like_name field))
    /\ (Forall (fun x => is_json_name x = false) (like_options field) ->
        display_name_of field = _snake_to_camel_case (like_name field))
    /\ (forall first rest,
          Forall (fun s => has_char underscore s = false) (first :: rest) ->
          _snake_to_camel_case (PyStr.join "_" (first :: rest))
          = first ++ PyStr.join "" (map PyStr.title rest))
    /\ (forall c r,
          PyStr.is_lower c = true -> all_lower r = true ->
          PyStr.title (String c r) = String (PyStr.to_upper c) r).
Proof.
  intros field is_oneof. split; [reflexivity|]. split; [|split; [|split]].
  - intros before o after Hopts Hbefore Ho.
    unfold display_name_of, json_name_of. fold is_json_name.
    change (fun o0 : ProtoOption => (option_name o0 =? "json_name")%string)
      with is_json_name.
    rewrite Hopts, (find_first_json_name before after o Hbefore Ho).
    reflexivity.
  - intros Hnone. unfold display_name_of, json_name_of.
    change (fun o0 : ProtoOption => (option_name o0 =? "json_name")%string)
      with is_json_name.
    now rewrite (find_no_json_name _ Hnone).
  - intros first rest H. now rewrite snake_to_camel_segments.
  - apply title_lower_word.
Qed.

Lemma display_name_rule_witness :
  display_name_of
    (IsField (mkField "foo_bar" "string" None
                [mkOption "deprecated" "true"; mkOption "json_name" (quoted "fooBar")] []))
  = "fooBar"
  /\ display_name_of (IsField (mkField "foo_bar" "string" None [] [])) = "fooBar"
  /\ _snake_to_camel_case "task_push_config" = "taskPushConfig".
Proof.
  split; [|split].
  - apply (proj1 (proj2 (display_name_rule
             (IsField (mkField "foo_bar" "string" None
                [mkOption "deprecated" "true"; mkOption "json_name" (quoted "fooBar")] []))
             false))
           [mkOption "deprecated" "true"] (mkOption "json_name" (quoted "fooBar")) []).
    + reflexivity.
    + repeat constructor.
    + reflexivity.
  - apply (proj1 (proj2 (proj2 (display_name_rule
             (IsField (mkField "foo_bar" "string" None [] [])) false)))).
    constructor.
  - apply (proj1 (proj2 (proj2 (proj2 (display_name_rule
             (IsField (mkField "x" "string" None [] [])) false))))
           "task" ["push"; "config"]).
    repeat constructor.
Defined.

(** C8 as stated fails when the [json_name] option is present with an
    empty value: the display name is not that value but the camelCase form
    of the declared name. *)
Lemma empty_json_name_falls_back :
  json_name_of [mkOption "json_name" (quoted "")] = Some ""
  /\ display_name_of
       (IsField (mkField "foo_bar" "string" None [mkOption "json_name" (quoted "")] []))
     = "fooBar"
  /\ display_name_of
       (IsField (mkField "foo_bar" "string" None [mkOption "json_name" (quoted "")] []))
     <> "".
Proof. repeat split. discriminate. Qed.

(* ------------------------------------------------------------------ *)
(** ** Properties: comment extraction *)
(* ------------------------------------------------------------------ *)

Lemma extract_loop (raw_comments acc : list string) :
  fold_left extract_step raw_comments acc
  = (acc ++ filter survives (map clean_comment raw_comments))%list.
Proof.
  revert acc. induction raw_comments as [|c cs IH]; intros acc; cbn [fold_left map filter].
  - now rewrite app_nil_r.
  - rewrite IH. unfold extract_step. fold (survives (clean_comment c)).
    destruct (survives (clean_comment c)); [|reflexivity].
    now rewrite <- app_assoc.
Qed.

Lemma extract_comments_filter (raw_comments : list string) :
  _extract_comments raw_comments
  = PyStr.join " " (filter survives (map clean_comment raw_comments)).
Proof. unfold _extract_comments. now rewrite extract_loop. Qed.

Lemma string_app_assoc (a b c : string) : (a ++ b) ++ c = a ++ b ++ c.
Proof. induction a as [|x a IH]; cbn; [reflexivity | now rewrite IH]. Qed.




Lemma string_length_app (a b : string) :
  String.length (a ++ b) = String.length a + String.length b.
Proof. induction a as [|x a IH]; cbn; [reflexivity | now rewrite IH]. Qed.











(* ------------------------------------------------------------------ *)
(** ** Properties: comment attachment *)
(* ------------------------------------------------------------------ *)

Section AttachLoop.

Variable attach_one : list string -> Element -> Element.

Lemma attach_loop_cons (buffer : list string) (el : Element) (rest : list Element) :
  attach_loop attach_one buffer (el :: rest)
  = (if is_comment el then el else attach_one buffer el)
      :: attach_loop attach_one (buffer_step buffer el) rest.
Proof. destruct el; reflexivity. Qed.

Lemma attach_loop_app (buffer : list string) (before after : list Element) :
  attach_loop attach_one buffer (before ++ after)
  = (attach_loop attach_one buffer before
       ++ attach_loop attach_one (buffer_after buffer before) after)%list.
Proof.
  revert buffer. induction before as [|el before IH]; intros buffer.
  - reflexivity.
  - rewrite <- app_comm_cons, !attach_loop_cons, IH. reflexivity.
Qed.

Lemma attach_loop_length (buffer : list string) (elements : list Element) :
  List.length (attach_loop attach_one buffer elements) = List.length elements.
Proof.
  revert buffer. induction elements as [|el rest IH]; intros buffer.
  - reflexivity.
  - rewrite attach_loop_cons. cbn [List.length]. now rewrite IH.
Qed.

Lemma attach_loop_comments (buffer : list string) (texts : list string) :
  attach_loop attach_one buffer (map Comment texts) = map Comment texts.
Proof.
  revert buffer. induction texts as [|t texts IH]; intros buffer; cbn.
  - reflexivity.
  - now rewrite IH.
Qed.

End AttachLoop.

Lemma buffer_after_snoc (buffer : list string) (before : list Element) (el : Element) :
  buffer_after buffer (before ++ [el]) = buffer_step (buffer_after buffer before) el.
Proof. unfold buffer_after. now rewrite fold_left_app. Qed.

Lemma preceding_run_snoc (before : list Element) (el : Element) :
  preceding_run (before ++ [el]) = buffer_step (preceding_run before) el.
Proof.
  unfold preceding_run. rewrite rev_app_distr. cbn [rev app].
  destruct el; reflexivity.
Qed.

(** The buffer, started empty, holds the run of comments the list ends with. *)
Lemma buffer_after_run (before : list Element) :
  buffer_after [] before = preceding_run before.
Proof.
  induction before as [|el before IH] using rev_ind.
  - reflexivity.
  - now rewrite buffer_after_snoc, preceding_run_snoc, IH.
Qed.

Lemma attach_sets_comments (buffer : list string) (el : Element) :
  is_comment el = false -> comments_of (attach_element buffer el) = buffer.
Proof. destruct el; cbn; congruence. Qed.

Lemma attach_recurses_fresh (buffer : list string) (el : Element) :
  elements_of (attach_element buffer el) = _attach_comments (elements_of el).
Proof. destruct el; reflexivity. Qed.

Lemma attach_at (before after : list Element) (el : Element) :
  is_comment el = false ->
  nth_error (_attach_comments (before ++ el :: after)) (List.length before)
  = Some (attach_element (preceding_run before) el).
Proof.
  intros Hel. unfold _attach_comments.
  rewrite attach_loop_app, nth_error_app2; rewrite attach_loop_length; [|lia].
  rewrite Nat.sub_diag, attach_loop_cons, Hel, buffer_after_run. reflexivity.
Qed.

Lemma attach_trailing (elements : list Element) (trailing : list string) :
  _attach_comments (elements ++ map Comment trailing)
  = (_attach_comments elements ++ map Comment trailing)%list.
Proof.
  unfold _attach_comments. now rewrite attach_loop_app, attach_loop_comments.
Qed.

(** C6: in the walk over a list of elements, an element that is not a
    comment is given as its comments exactly the contiguous run of comment
    texts that immediately precedes it in the list (the buffer is empty again
    after every attachment); its nested elements are walked by the same
    algorithm from an empty buffer, whatever the buffer outside was; comments
    that no element follows are attached to nothing. *)
Theorem attach_comments_rule :
  forall (before after : list Element) (el : Element),
    is_comment el = false ->
    nth_error (_attach_comments (before ++ el :: after)) (List.length before)
      = Some (attach_element (preceding_run before) el)
    /\ comments_of (attach_element (preceding_run before) el) = preceding_run before
    /\ (forall buffer,
          elements_of (attach_element buffer el) = _attach_comments (elements_of el))
    /\ (forall elements trailing,
          _attach_comments (elements ++ map Comment trailing)
          = (_attach_comments elements ++ map Comment trailing)%list).
Proof.
  intros before after el Hel. repeat split.
  - now apply attach_at.
  - now apply attach_sets_comments.
  - intros buffer. apply attach_recurses_fresh.
  - apply attach_trailing.
Qed.

Lemma attach_comments_rule_witness :
  nth_error
    (_attach_comments
       [Comment "// old"; EnumValue "A" []; Comment "// one"; Comment "// two";
        Message "Task" [Comment "// id"; EnumValue "B" []] []; Comment "// last"])
    4
  = Some (Message "Task" [Comment "// id"; EnumValue "B" ["// id"]] ["// one"; "// two"]).
Proof.
  apply (proj1 (attach_comments_rule
                  [Comment "// old"; EnumValue "A" []; Comment "// one"; Comment "// two"]
                  [Comment "// last"]
                  (Message "Task" [Comment "// id"; EnumValue "B" []] [])
                  eq_refl)).
Defined.

(* ------------------------------------------------------------------ *)
(** ** Properties: the type locator *)
(* ------------------------------------------------------------------ *)

Lemma declares_unfold (name : string) (cls : TargetClass) (el : Element) :
  declares name cls el
  = (name_is name el && isinstance el cls)
    || existsb (declares name cls) (elements_of el).
Proof. destruct el; reflexivity. Qed.

Lemma first_found_none {A B : Type} (f : A -> option B) (l : list A) :
  Forall (fun x => f x = None) l -> first_found f l = None.
Proof. intros H. induction H as [|x l Hx _ IH]; cbn; [reflexivity | now rewrite Hx]. Qed.

Lemma find_in_element_absent (name : string) (cls : TargetClass) (el : Element) :
  declares name cls el = false -> find_in_element name cls el = None.
Proof.
  induction el as [el IH] using Element_deep_ind.
  rewrite declares_unfold. intros H. apply orb_false_iff in H. destruct H as [Hhere Hin].
  assert (Hnested : first_found (find_in_element name cls) (elements_of el) = None).
  { apply first_found_none. rewrite Forall_forall in *. intros x Hx. apply IH; [exact Hx|].
    destruct (declares name cls x) eqn:Hd; [|reflexivity].
    exfalso. assert (Hex : exists y, In y (elements_of el) /\ declares name cls y = true)
      by (exists x; auto).
    apply existsb_exists in Hex. congruence. }
  destruct el; cbn in *; rewrite ?Hhere; try reflexivity; exact Hnested.
Qed.

Lemma find_type_absent (name : string) (cls : TargetClass) (elements : list Element) :
  absent name cls elements -> _find_type elements name cls = None.
Proof.
  unfold absent, _find_type. intros H. apply first_found_none.
  rewrite Forall_forall. intros x Hx. apply find_in_element_absent.
  destruct (declares name cls x) eqn:Hd; [|reflexivity].
  assert (Hex : exists y, In y elements /\ declares name cls y = true) by (exists x; auto).
  apply existsb_exists in Hex. congruence.
Qed.

Lemma find_in_element_unfold (name : string) (cls : TargetClass) (el : Element) :
  find_in_element name cls el
  = if name_is name el && isinstance el cls then Some el
    else match el with
         | Message _ els _ => first_found (find_in_element name cls) els
         | _ => None
         end.
Proof. destruct el; reflexivity. Qed.

Lemma first_found_some {A B : Type} (f : A -> option B) (l : list A) (y : B) :
  first_found f l = Some y -> exists x, In x l /\ f x = Some y.
Proof.
  induction l as [|x l IH]; cbn; [discriminate|].
  destruct (f x) as [y'|] eqn:Hx.
  - intros H. exists x. split; [now left | congruence].
  - intros H. destruct (IH H) as (x' & Hin & Hfx). exists x'. auto.
Qed.

Lemma find_in_element_sound (name : string) (cls : TargetClass) (el found : Element) :
  find_in_element name cls el = Some found ->
  name_is name found = true /\ isinstance found cls = true.
Proof.
  induction el as [el IH] using Element_deep_ind.
  assert (Hnested : first_found (find_in_element name cls) (elements_of el) = Some found ->
                    name_is name found = true /\ isinstance found cls = true).
  { intros H. apply first_found_some in H. destruct H as (x & Hin & Hx).
    rewrite Forall_forall in IH. exact (IH x Hin Hx). }
  rewrite find_in_element_unfold.
  destruct (name_is name el && isinstance el cls) eqn:Hhere.
  - intros H. inversion H; subst. now apply andb_true_iff in Hhere.
  - destruct el; try discriminate; exact Hnested.
Qed.

(** What [_find_type] returns is of the class asked for and has the name. *)
Lemma find_type_sound (name : string) (cls : TargetClass)
  (elements : list Element) (found : Element) :
  _find_type elements name cls = Some found ->
  name_is name found = true /\ isinstance found cls = true.
Proof.
  unfold _find_type. intros H. apply first_found_some in H.
  destruct H as (x & _ & Hx). now apply find_in_element_sound in Hx.
Qed.

Lemma attach_keeps_name (name : string) (buffer : list string) (el : Element) :
  name_is name (attach_element buffer el) = name_is name el.
Proof. destruct el; reflexivity. Qed.

Lemma attach_keeps_class (cls : TargetClass) (buffer : list string) (el : Element) :
  isinstance (attach_element buffer el) cls = isinstance el cls.
Proof. destruct el; destruct cls; reflexivity. Qed.

Lemma existsb_attach_loop (p : Element -> bool) (elements : list Element) :
  Forall (fun el => forall buffer, p (attach_element buffer el) = p el) elements ->
  forall buffer,
    existsb p (attach_loop attach_element buffer elements) = existsb p elements.
Proof.
  intros H. induction H as [|el rest Hel _ IH]; intros buffer.
  - reflexivity.
  - rewrite attach_loop_cons. cbn [existsb]. rewrite IH. f_equal.
    destruct (is_comment el); [reflexivity | apply Hel].
Qed.

Lemma declares_attach (name : string) (cls : TargetClass) (el : Element) :
  forall buffer, declares name cls (attach_element buffer el) = declares name cls el.
Proof.
  induction el as [el IH] using Element_deep_ind. intros buffer.
  rewrite !declares_unfold, attach_keeps_name, attach_keeps_class, attach_recurses_fresh.
  unfold _attach_comments. now rewrite existsb_attach_loop.
Qed.

Lemma absent_attach (name : string) (cls : TargetClass) (elements : list Element) :
  absent name cls elements -> absent name cls (_attach_comments elements).
Proof.
  unfold absent, _attach_comments. intros H. rewrite existsb_attach_loop; [exact H|].
  rewrite Forall_forall. intros el _. apply declares_attach.
Qed.

(* ------------------------------------------------------------------ *)
(** ** Properties: the dict of oneof groups *)
(* ------------------------------------------------------------------ *)

Lemma lookup_setdefault_same (k v : string) (d : list (string * list string)) :
  dict_lookup k (setdefault_append k v d) = Some (dict_get k [] d ++ [v])%list.
Proof.
  unfold dict_get. induction d as [|[k' vs] d IH]; cbn.
  - now rewrite String.eqb_refl.
  - destruct (String.eqb k' k) eqn:E; cbn; rewrite E; [reflexivity | exact IH].
Qed.

Lemma lookup_setdefault_other (k k' v : string) (d : list (string * list string)) :
  k' <> k -> dict_lookup k' (setdefault_append k v d) = dict_lookup k' d.
Proof.
  intros Hne. induction d as [|[k0 vs] d IH]; cbn.
  - apply String.eqb_neq in Hne. rewrite String.eqb_sym in Hne. now rewrite Hne.
  - destruct (String.eqb k0 k) eqn:E; cbn.
    + apply String.eqb_eq in E. subst k0.
      assert (String.eqb k k' = false) as -> by (apply String.eqb_neq; congruence).
      reflexivity.
    + now rewrite IH.
Qed.

Lemma keys_setdefault (k v : string) (d : list (string * list string)) :
  map fst (setdefault_append k v d)
  = if dict_mem k d then map fst d else (map fst d ++ [k])%list.
Proof.
  unfold dict_mem. induction d as [|[k0 vs] d IH]; cbn; [reflexivity|].
  destruct (String.eqb k0 k) eqn:E; cbn; [reflexivity|].
  rewrite IH. destruct (dict_lookup k d); reflexivity.
Qed.

Lemma lookup_none_not_key {V : Type} (k : string) (d : list (string * V)) :
  dict_lookup k d = None -> ~ In k (map fst d).
Proof.
  induction d as [|[k0 v] d IH]; cbn; [tauto|].
  destruct (String.eqb k0 k) eqn:E; [discriminate|].
  apply String.eqb_neq in E. intros H [H0|H0]; [congruence | now apply IH].
Qed.

Lemma lookup_in {V : Type} (k : string) (v : V) (d : list (string * V)) :
  dict_lookup k d = Some v -> In (k, v) d.
Proof.
  induction d as [|[k0 v0] d IH]; cbn; [discriminate|].
  destruct (String.eqb k0 k) eqn:E.
  - apply String.eqb_eq in E. intros H. left. congruence.
  - intros H. right. now apply IH.
Qed.

Lemma in_lookup {V : Type} (k : string) (v : V) (d : list (string * V)) :
  NoDup (map fst d) -> In (k, v) d -> dict_lookup k d = Some v.
Proof.
  induction d as [|[k0 v0] d IH]; cbn; [tauto|].
  intros Hnd [H|H]; inversion Hnd; subst.
  - inversion H; subst. now rewrite String.eqb_refl.
  - destruct (String.eqb k0 k) eqn:E; [|now apply IH].
    apply String.eqb_eq in E. subst k0. exfalso. apply H2.
    change k with (fst (k, v)). now apply in_map.
Qed.

Lemma setdefault_nonempty (k v : string) (d : list (string * list string)) :
  Forall (fun kv => snd kv <> []) d ->
  Forall (fun kv => snd kv <> []) (setdefault_append k v d).
Proof.
  intros H. induction H as [|[k0 vs] d Hx Hd IH]; cbn.
  - constructor; [|constructor]. discriminate.
  - destruct (String.eqb k0 k); constructor; try assumption.
    cbn. destruct vs; discriminate.
Qed.

Lemma setdefault_well_grouped (k v : string) (d : list (string * list string)) :
  well_grouped d -> well_grouped (setdefault_append k v d).
Proof.
  intros [Hnd Hne]. split; [|now apply setdefault_nonempty].
  rewrite keys_setdefault. unfold dict_mem.
  destruct (dict_lookup k d) eqn:E; [exact Hnd|].
  apply NoDup_app; [exact Hnd | repeat constructor; cbn; tauto |].
  intros x Hx [Hk|[]]. subst x. now apply (lookup_none_not_key k d).
Qed.

Lemma record_all_well_grouped (g : string) (names : list string)
  (d : list (string * list string)) :
  well_grouped d -> well_grouped (record_all g names d).
Proof.
  revert d. induction names as [|v names IH]; intros d H; cbn; [exact H|].
  apply IH. now apply setdefault_well_grouped.
Qed.

Lemma record_all_same (g : string) (names : list string)
  (d : list (string * list string)) :
  dict_get g [] (record_all g names d) = (dict_get g [] d ++ names)%list.
Proof.
  revert d. induction names as [|v names IH]; intros d.
  - cbn. now rewrite app_nil_r.
  - change (record_all g (v :: names) d)
      with (record_all g names (setdefault_append g v d)).
    rewrite IH. unfold dict_get at 1. rewrite lookup_setdefault_same.
    now rewrite <- app_assoc.
Qed.

Lemma record_all_other (g g' : string) (names : list string)
  (d : list (string * list string)) :
  g' <> g -> dict_lookup g' (record_all g names d) = dict_lookup g' d.
Proof.
  intros Hne. revert d. induction names as [|v names IH]; intros d; [reflexivity|].
  change (record_all g (v :: names) d)
    with (record_all g names (setdefault_append g v d)).
  rewrite IH. now apply lookup_setdefault_other.
Qed.

Lemma record_element_members (g : string) (el : Element)
  (d : list (string * list string)) :
  dict_get g [] (record_element d el)
  = (dict_get g [] d ++ recorded_members g [el])%list.
Proof.
  unfold recorded_members. cbn [flat_map]. rewrite app_nil_r.
  destruct el; cbn [record_element]; try now rewrite app_nil_r.
  destruct (String.eqb name g) eqn:E.
  - apply String.eqb_eq in E. subst name. apply record_all_same.
  - apply String.eqb_neq in E. unfold dict_get.
    rewrite record_all_other by congruence. now rewrite app_nil_r.
Qed.

Lemma record_element_well_grouped (el : Element) (d : list (string * list string)) :
  well_grouped d -> well_grouped (record_element d el).
Proof. destruct el; cbn; auto using record_all_well_grouped. Qed.

Lemma recorded_members_app (g : string) (a b : list Element) :
  recorded_members g (a ++ b) = (recorded_members g a ++ recorded_members g b)%list.
Proof. unfold recorded_members. apply flat_map_app. Qed.

Lemma record_elements_members (g : string) (elements : list Element)
  (d : list (string * list string)) :
  dict_get g [] (fold_left record_element elements d)
  = (dict_get g [] d ++ recorded_members g elements)%list.
Proof.
  revert d. induction elements as [|el rest IH]; intros d; cbn [fold_left].
  - unfold recorded_members. cbn. now rewrite app_nil_r.
  - rewrite IH, record_element_members.
    change (el :: rest) with ([el] ++ rest)%list.
    now rewrite recorded_members_app, app_assoc.
Qed.

Lemma record_elements_well_grouped (elements : list Element)
  (d : list (string * list string)) :
  well_grouped d -> well_grouped (fold_left record_element elements d).
Proof.
  revert d. induction elements as [|el rest IH]; intros d H; cbn; [exact H|].
  apply IH. now apply record_element_well_grouped.
Qed.

(* ------------------------------------------------------------------ *)
(** ** Properties: the loops of the message renderer *)
(* ------------------------------------------------------------------ *)

Lemma collect_oneof_members (g : string) (members : list Element)
  (rows : list (list string)) (groups : list (string * list string)) :
  fold_left (collect_oneof_member g) members (rows, groups)
  = ((rows ++ oneof_rows members)%list,
     record_all g (map recorded_name (member_fields members)) groups).
Proof.
  revert rows groups. induction members as [|m members IH]; intros rows groups.
  - cbn. now rewrite app_nil_r.
  - cbn [fold_left].
    destruct m; cbn [collect_oneof_member]; try apply IH.
    rewrite IH. unfold oneof_rows. cbn [member_fields map].
    rewrite <- app_assoc. reflexivity.
Qed.

Lemma collect_element_spec (el : Element)
  (rows : list (list string)) (groups : list (string * list string)) :
  collect_element (rows, groups) el
  = ((rows ++ rows_of_element el)%list, record_element groups el).
Proof.
  destruct el; cbn [collect_element rows_of_element record_element];
    rewrite ?app_nil_r; try reflexivity.
  apply collect_oneof_members.
Qed.

Lemma collect_elements_spec (elements : list Element)
  (rows : list (list string)) (groups : list (string * list string)) :
  fold_left collect_element elements (rows, groups)
  = ((rows ++ flat_map rows_of_element elements)%list,
     fold_left record_element elements groups).
Proof.
  revert rows groups. induction elements as [|el rest IH]; intros rows groups.
  - cbn. now rewrite app_nil_r.
  - cbn [fold_left flat_map]. rewrite collect_element_spec, IH.
    now rewrite <- app_assoc.
Qed.

Lemma collect_rows_spec (elements : list Element) :
  collect_rows elements
  = (flat_map rows_of_element elements, fold_left record_element elements []).
Proof. unfold collect_rows. now rewrite collect_elements_spec. Qed.

(** The dict the message renderer builds: its entries are the group names
    with at least one recorded member, each once, with all the members
    recorded under the name. *)
Lemma oneof_groups_entries (elements : list Element) (g : string) (fields : list string) :
  In (g, fields) (snd (collect_rows elements))
  <-> fields = recorded_members g elements /\ fields <> [].
Proof.
  rewrite collect_rows_spec. cbn [snd].
  assert (Hwg : well_grouped (fold_left record_element elements [])).
  { apply record_elements_well_grouped. split; constructor. }
  pose proof (record_elements_members g elements []) as Hget.
  cbn [app] in Hget. change (dict_get g [] (@nil (string * list string))) with (@nil string) in Hget.
  cbn [app] in Hget.
  destruct Hwg as [Hnd Hne]. split.
  - intros Hin. split.
    + rewrite <- Hget. unfold dict_get. now rewrite (in_lookup _ _ _ Hnd Hin).
    + rewrite Forall_forall in Hne. exact (Hne _ Hin).
  - intros [Heq Hnonempty]. apply lookup_in.
    unfold dict_get in Hget.
    destruct (dict_lookup g (fold_left record_element elements [])) as [fs|].
    + congruence.
    + congruence.
Qed.

Lemma notes_loop (message_name : string) (oneof_groups : list (string * list string))
  (output : list string) :
  fold_left (note_step message_name) oneof_groups output
  = (output ++ map (oneof_note message_name)
                   (filter (fun fields => Nat.ltb 1 (List.length fields))
                           (map snd oneof_groups)))%list.
Proof.
  revert output. induction oneof_groups as [|[g fields] rest IH]; intros output.
  - cbn. now rewrite app_nil_r.
  - cbn [fold_left map filter snd]. rewrite IH. unfold note_step.
    destruct (Nat.ltb 1 (List.length fields)); [|reflexivity].
    now rewrite <- app_assoc.
Qed.

(* ------------------------------------------------------------------ *)
(** ** Properties: backticks around a name *)
(* ------------------------------------------------------------------ *)

Lemma drop_while_end_snoc (p : ascii -> bool) (s : string) (c : ascii) :
  p c = true ->
  PyStr.drop_while_end p (s ++ String c EmptyString) = PyStr.drop_while_end p s.
Proof.
  intros H. induction s as [|a s IH]; cbn.
  - now rewrite H.
  - now rewrite IH.
Qed.

Lemma strip_by_snoc (p : ascii -> bool) (s : string) (c : ascii) :
  p c = true ->
  PyStr.strip_by p (s ++ String c EmptyString) = PyStr.strip_by p s.
Proof.
  intros H. unfold PyStr.strip_by. induction s as [|a s IH]; cbn.
  - now rewrite H.
  - destruct (p a); [exact IH|].
    change (String a (s ++ String c EmptyString))
      with (String a s ++ String c EmptyString).
    now apply drop_while_end_snoc.
Qed.

Lemma strip_inline_code (name : string) :
  PyStr.strip_char PyStr.backtick (inline_code name)
  = PyStr.strip_char PyStr.backtick name.
Proof.
  unfold inline_code, PyStr.strip_char.
  change ("`" ++ name ++ "`") with (String PyStr.backtick (name ++ String PyStr.backtick "")).
  unfold PyStr.strip_by at 1. cbn [PyStr.drop_while]. rewrite Ascii.eqb_refl.
  apply (strip_by_snoc (Ascii.eqb PyStr.backtick) name PyStr.backtick).
  apply Ascii.eqb_refl.
Qed.

Lemma drop_while_end_no_end (c : ascii) (s : string) :
  ends_with_char c s = false -> PyStr.drop_while_end (Ascii.eqb c) s = s.
Proof.
  induction s as [|a r IH]; [reflexivity|].
  destruct r as [|b r'].
  - cbn. intros H. now rewrite H.
  - intros H. change (ends_with_char c (String a (String b r')))
      with (ends_with_char c (String b r')) in H.
    cbn [PyStr.drop_while_end]. cbn [PyStr.drop_while_end] in IH.
    rewrite (IH H). reflexivity.
Qed.

Lemma strip_char_no_ends (c : ascii) (s : string) :
  starts_with_char c s = false -> ends_with_char c s = false ->
  PyStr.strip_char c s = s.
Proof.
  intros Hs He. unfold PyStr.strip_char, PyStr.strip_by.
  destruct s as [|a r]; [reflexivity|].
  cbn in Hs. cbn [PyStr.drop_while]. rewrite Hs.
  now apply drop_while_end_no_end.
Qed.

Lemma recorded_name_display (f : Field) :
  recorded_name f = PyStr.strip_char PyStr.backtick (display_name_of (IsField f)).
Proof. unfold recorded_name. apply strip_inline_code. Qed.

(* ------------------------------------------------------------------ *)
(** ** Properties: the macros *)
(* ------------------------------------------------------------------ *)

Lemma no_rows (elements : list Element) :
  existsb produces_row elements = false -> flat_map rows_of_element elements = [].
Proof.
  induction elements as [|el rest IH]; [reflexivity|].
  cbn [existsb flat_map]. intros H. apply orb_false_iff in H. destruct H as [Hel Hrest].
  rewrite (IH Hrest), app_nil_r.
  destruct el; try discriminate; try reflexivity.
  cbn in Hel |- *. unfold oneof_rows.
  induction elements as [|m members IHm]; [reflexivity|].
  cbn in Hel. apply orb_false_iff in Hel. destruct Hel as [Hm Hmembers].
  destruct m; try discriminate; cbn [member_fields]; now apply IHm.
Qed.

Lemma service_loop (elements : list Element) (rows : list (list string)) :
  fold_left service_step elements rows = (rows ++ method_rows elements)%list.
Proof.
  revert rows. induction elements as [|el rest IH]; intros rows.
  - cbn. now rewrite app_nil_r.
  - cbn [fold_left]. rewrite IH. unfold method_rows. cbn [flat_map].
    destruct el; cbn [service_step]; rewrite ?app_nil_r; try reflexivity.
    now rewrite <- app_assoc.
Qed.

Lemma no_methods (elements : list Element) :
  existsb is_method elements = false -> method_rows elements = [].
Proof.
  induction elements as [|el rest IH]; [reflexivity|].
  cbn [existsb]. intros H. apply orb_false_iff in H. destruct H as [Hel Hrest].
  unfold method_rows in *. cbn [flat_map]. rewrite (IH Hrest).
  destruct el; try discriminate; reflexivity.
Qed.

Lemma no_enum_values (elements : list Element) :
  existsb is_enum_value elements = false -> enum_rows elements = [].
Proof.
  induction elements as [|el rest IH]; [reflexivity|].
  cbn [existsb]. intros H. apply orb_false_iff in H. destruct H as [Hel Hrest].
  destruct el; try discriminate; cbn; now apply IH.
Qed.

Lemma has_newline (a b : string) : has_char PyStr.LF (a ++ String PyStr.LF b) = true.
Proof.
  induction a as [|c a IH]; cbn [append has_char].
  - now rewrite Ascii.eqb_refl.
  - rewrite IH. apply orb_true_r.
Qed.

Lemma with_newline_not_None (a b : string) : a ++ newline ++ b <> "None".
Proof.
  intros H. apply (f_equal (has_char PyStr.LF)) in H.
  change (a ++ newline ++ b) with (a ++ String PyStr.LF b) in H.
  rewrite has_newline in H. discriminate.
Qed.

Lemma noted_iff (oneof_groups : list (string * list string)) (g : string)
  (fields : list string) :
  In (g, fields) oneof_groups ->
  (In fields (filter (fun fs => Nat.ltb 1 (List.length fs)) (map snd oneof_groups))
   <-> 1 < List.length fields).
Proof.
  intros Hin. rewrite filter_In, Nat.ltb_lt. split; [tauto|].
  intros H. split; [|exact H].
  change fields with (snd (g, fields)). now apply in_map.
Qed.

Section MacroProperties.

Variable source_text : string -> option string.
Variable Parser_parse : string -> result (list Element).
Variable tabulate : list (list string) -> list string -> string.

Local Abbreviation parse_proto := (_parse_proto source_text Parser_parse).
Local Abbreviation render_message := (proto_to_table source_text Parser_parse tabulate).
Local Abbreviation render_enum := (proto_enum_to_table source_text Parser_parse tabulate).
Local Abbreviation render_service := (proto_service_to_table source_text Parser_parse tabulate).

Lemma parse_missing (proto_file : string) :
  source_text proto_file = None ->
  parse_proto proto_file = Raise (FileNotFoundError ("Proto not found: " ++ proto_file)).
Proof. intros H. unfold _parse_proto. now rewrite H. Qed.

Lemma parse_raises (proto_file text : string) (e : exn) :
  source_text proto_file = Some text -> Parser_parse text = Raise e ->
  parse_proto proto_file = Raise e.
Proof. intros H1 H2. unfold _parse_proto. now rewrite H1, H2. Qed.

Lemma parse_returns (proto_file text : string) (file_elements : list Element) :
  source_text proto_file = Some text -> Parser_parse text = Return file_elements ->
  parse_proto proto_file = Return (_attach_comments file_elements).
Proof. intros H1 H2. unfold _parse_proto. now rewrite H1, H2. Qed.

Lemma message_output_lines (message_name : string) (target : Element)
  (rows : list (list string)) (oneof_groups : list (string * list string)) :
  message_output tabulate message_name target rows oneof_groups
  = (description_lines target ++ [tabulate rows message_headers]
       ++ notes_section message_name oneof_groups)%list.
Proof.
  unfold message_output, description_lines, notes_section.
  destruct oneof_groups as [|g rest].
  - now rewrite app_nil_r.
  - rewrite notes_loop. cbn [app]. rewrite <- !app_assoc. reflexivity.
Qed.

Lemma render_message_found (message_name proto_file : string)
  (elements : list Element) (target : Element) :
  parse_proto proto_file = Return elements ->
  _find_type elements message_name MessageClass = Some target ->
  render_message message_name proto_file
  = match flat_map rows_of_element (elements_of target) with
    | [] => Return "None"
    | _ :: _ =>
        Return (PyStr.join newline
                  (description_lines target
                     ++ [tabulate (flat_map rows_of_element (elements_of target))
                                  message_headers]
                     ++ notes_section message_name
                          (snd (collect_rows (elements_of target))))%list)
    end.
Proof.
  intros Hparse Hfind. unfold proto_to_table. rewrite Hparse, Hfind.
  rewrite collect_rows_spec. cbn [snd].
  destruct (flat_map rows_of_element (elements_of target)) as [|row rows] eqn:Hrows;
    [reflexivity|].
  now rewrite message_output_lines.
Qed.

Lemma render_enum_found (enum_name proto_file : string)
  (elements : list Element) (el : Element) :
  parse_proto proto_file = Return elements ->
  _find_type elements enum_name EnumClass = Some el ->
  render_enum enum_name proto_file
  = Return (_extract_comments (comments_of el) ++ newline ++ newline
              ++ tabulate (enum_rows (elements_of el)) enum_headers).
Proof. intros Hparse Hfind. unfold proto_enum_to_table. now rewrite Hparse, Hfind. Qed.

Lemma render_service_found (service_name proto_file : string)
  (elements : list Element) (service : Element) :
  parse_proto proto_file = Return elements ->
  _find_type elements service_name ServiceClass = Some service ->
  render_service service_name proto_file
  = match method_rows (elements_of service) with
    | [] => Return "None"
    | _ :: _ => Return (tabulate (method_rows (elements_of service)) service_headers)
    end.
Proof.
  intros Hparse Hfind. unfold proto_service_to_table. rewrite Hparse, Hfind.
  rewrite service_loop. cbn [app].
  destruct (method_rows (elements_of service)); reflexivity.
Qed.

(** C3: when the file is missing, the message macro returns the string
    [**Error:** Proto not found: <path>] (as do the other two); an exception
    of any other class raised while the file is parsed leaves the message
    macro as it is, uncaught, and is turned by the enum and service macros
    into [**Error:** <message>], as every exception is; and a name that the
    parsed file declares nowhere gives, in the three macros, the string
    [**Error:** <Kind> `<name>` not found.], not an exception. *)
Theorem error_policy :
  forall name proto_file : string,
    (source_text proto_file = None ->
       render_message name proto_file
         = Return ("**Error:** Proto not found: " ++ proto_file)
       /\ render_enum name proto_file
         = Return ("**Error:** Proto not found: " ++ proto_file)
       /\ render_service name proto_file
         = Return ("**Error:** Proto not found: " ++ proto_file))
    /\ (forall text msg,
          source_text proto_file = Some text ->
          Parser_parse text = Raise (OtherException msg) ->
          render_message name proto_file = Raise (OtherException msg))
    /\ (forall e,
          parse_proto proto_file = Raise e ->
          render_enum name proto_file = Return ("**Error:** " ++ exn_str e)
          /\ render_service name proto_file = Return ("**Error:** " ++ exn_str e))
    /\ (forall text file_elements,
          source_text proto_file = Some text ->
          Parser_parse text = Return file_elements ->
          (absent name MessageClass file_elements ->
             render_message name proto_file
             = Return ("**Error:** Message `" ++ name ++ "` not found."))
          /\ (absent name EnumClass file_elements ->
                render_enum name proto_file
                = Return ("**Error:** Enum `" ++ name ++ "` not found."))
          /\ (absent name ServiceClass file_elements ->
                render_service name proto_file
                = Return ("**Error:** Service `" ++ name ++ "` not found."))).
Proof.
  intros name proto_file. split; [|split; [|split]].
  - intros Hmissing.
    unfold proto_to_table, proto_enum_to_table, proto_service_to_table.
    rewrite (parse_missing _ Hmissing). repeat split.
  - intros text msg Htext Hraise. unfold proto_to_table.
    now rewrite (parse_raises _ _ _ Htext Hraise).
  - intros e He. unfold proto_enum_to_table, proto_service_to_table.
    rewrite He. split; reflexivity.
  - intros text file_elements Htext Hparse.
    pose proof (parse_returns _ _ _ Htext Hparse) as Hok.
    unfold proto_to_table, proto_enum_to_table, proto_service_to_table.
    rewrite Hok. repeat split; intros Habsent;
      rewrite (find_type_absent _ _ _ (absent_attach _ _ _ Habsent)); reflexivity.
Qed.

(** X19: for a message the renderer finds and that has rows, the output is
    the description lines, the table of the rows, and the notes; every field
    of a oneof group gives one row, in order, whose required cell is
    [Optional (OneOf)]; the groups are recorded by name, each name once, with
    the names recorded for the fields of the oneof groups of that name in
    declaration order, a recorded name being the name cell with the backticks
    at its two ends stripped (the display name when it has none there); and
    there is one note over the recorded names for every group with more than
    one recorded member, and none for a group with one. *)
Theorem oneof_rows_and_notes :
  forall (message_name proto_file : string) (elements : list Element) (target : Element),
    parse_proto proto_file = Return elements ->
    _find_type elements message_name MessageClass = Some target ->
    flat_map rows_of_element (elements_of target) <> [] ->
    render_message message_name proto_file
      = Return (PyStr.join newline
                  (description_lines target
                     ++ [tabulate (flat_map rows_of_element (elements_of target))
                                  message_headers]
                     ++ notes_section message_name
                          (snd (collect_rows (elements_of target))))%list)
    /\ (forall fields,
          oneof_note message_name fields
          = "**Note:** A `" ++ message_name
              ++ "` MUST contain exactly one of the following: "
              ++ PyStr.join ", " (map inline_code fields))
    /\ (forall before g members c after,
          elements_of target = (before ++ OneOf g members c :: after)%list ->
          flat_map rows_of_element (elements_of target)
          = (flat_map rows_of_element before
               ++ map (fun f => _process_field (IsField f) true) (member_fields members)
               ++ flat_map rows_of_element after)%list)
    /\ (forall f, required_cell (_process_field (IsField f) true) = "Optional (OneOf)")
    /\ NoDup (map fst (snd (collect_rows (elements_of target))))
    /\ (forall g fields,
          In (g, fields) (snd (collect_rows (elements_of target)))
          <-> fields = recorded_members g (elements_of target) /\ fields <> [])
    /\ (forall g fields,
          In (g, fields) (snd (collect_rows (elements_of target))) ->
          (In fields
              (filter (fun fs => Nat.ltb 1 (List.length fs))
                      (map snd (snd (collect_rows (elements_of target)))))
           <-> 1 < List.length fields))
    /\ (name_is message_name target = true /\ isinstance target MessageClass = true)
    /\ (forall f,
          recorded_name f = PyStr.strip_char PyStr.backtick (display_name_of (IsField f))
          /\ (starts_with_char PyStr.backtick (display_name_of (IsField f)) = false ->
              ends_with_char PyStr.backtick (display_name_of (IsField f)) = false ->
              recorded_name f = display_name_of (IsField f))).
Proof.
  intros message_name proto_file elements target Hparse Hfind Hrows.
  split; [|split; [|split; [|split; [|split; [|split; [|split; [|split]]]]]]].
  - rewrite (render_message_found _ _ _ _ Hparse Hfind).
    destruct (flat_map rows_of_element (elements_of target)) as [|row rows];
      [congruence|].
    reflexivity.
  - reflexivity.
  - intros before g members c after Hels. rewrite Hels, flat_map_app. reflexivity.
  - reflexivity.
  - rewrite collect_rows_spec. cbn [snd].
    apply record_elements_well_grouped. split; constructor.
  - intros g fields. apply oneof_groups_entries.
  - intros g fields. apply noted_iff.
  - exact (find_type_sound _ _ _ _ Hfind).
  - intros f. split; [apply recorded_name_display|].
    intros Hs He. rewrite recorded_name_display. now apply strip_char_no_ends.
Qed.

(** C9: a message the renderer finds none of whose direct children gives a
    row, and a service the renderer finds with no method, are rendered as
    the string [None]. *)
Theorem none_without_rows :
  forall (name proto_file : string) (elements : list Element) (target : Element),
    parse_proto proto_file = Return elements ->
    (_find_type elements name MessageClass = Some target ->
       existsb produces_row (elements_of target) = false ->
       render_message name proto_file = Return "None")
    /\ (_find_type elements name ServiceClass = Some target ->
          existsb is_method (elements_of target) = false ->
          render_service name proto_file = Return "None").
Proof.
  intros name proto_file elements target Hparse. split; intros Hfind Hnone.
  - rewrite (render_message_found _ _ _ _ Hparse Hfind).
    now rewrite (no_rows _ Hnone).
  - rewrite (render_service_found _ _ _ _ Hparse Hfind).
    now rewrite (no_methods _ Hnone).
Qed.

Lemma render_enum_not_None (enum_name proto_file : string) :
  render_enum enum_name proto_file <> Return "None".
Proof.
  unfold proto_enum_to_table.
  destruct (parse_proto proto_file) as [elements|e]; cbn [catch_all].
  - destruct (_find_type elements enum_name EnumClass) as [el|]; cbn [catch_all].
    + intros H. inversion H as [H'].
      now apply with_newline_not_None in H'.
    + discriminate.
  - discriminate.
Qed.

(** C10: for an enum the renderer finds, the result is the description of
    the enum, two newlines, and the two-column table of its values: with no
    comment attached the result begins with the two newlines, with no value
    the table is the one of no rows; and the enum renderer never returns the
    string [None]. *)
Theorem enum_table_always :
  forall (enum_name proto_file : string) (elements : list Element) (el : Element),
    parse_proto proto_file = Return elements ->
    _find_type elements enum_name EnumClass = Some el ->
    render_enum enum_name proto_file
      = Return (_extract_comments (comments_of el) ++ newline ++ newline
                  ++ tabulate (enum_rows (elements_of el)) enum_headers)
    /\ (comments_of el = [] ->
        render_enum enum_name proto_file
          = Return (newline ++ newline
                      ++ tabulate (enum_rows (elements_of el)) enum_headers))
    /\ (existsb is_enum_value (elements_of el) = false ->
        render_enum enum_name proto_file
          = Return (_extract_comments (comments_of el) ++ newline ++ newline
                      ++ tabulate [] enum_headers))
    /\ (forall any_name any_file, render_enum any_name any_file <> Return "None").
Proof.
  intros enum_name proto_file elements el Hparse Hfind.
  rewrite (render_enum_found _ _ _ _ Hparse Hfind). repeat split.
  - intros Hc. now rewrite Hc.
  - intros Hnone. now rewrite (no_enum_values _ Hnone).
  - intros any_name any_file. apply render_enum_not_None.
Qed.

End MacroProperties.

(* ------------------------------------------------------------------ *)
(** ** The properties on the sample file *)
(* ------------------------------------------------------------------ *)

Lemma error_policy_witness :
  proto_to_table sample_source sample_parse sample_tabulate "Msg" "missing.proto"
    = Return "**Error:** Proto not found: missing.proto"
  /\ proto_to_table sample_source sample_parse sample_tabulate "Msg" "broken.proto"
    = Raise (OtherException "syntax error")
  /\ proto_enum_to_table sample_source sample_parse sample_tabulate "State" "broken.proto"
    = Return "**Error:** syntax error"
  /\ proto_service_to_table sample_source sample_parse sample_tabulate "Bogus"
       "specification/a2a.proto"
    = Return "**Error:** Service `Bogus` not found.".
Proof.
  split; [|split; [|split]].
  - exact (proj1 (proj1 (error_policy sample_source sample_parse sample_tabulate
                           "Msg" "missing.proto") eq_refl)).
  - exact (proj1 (proj2 (error_policy sample_source sample_parse sample_tabulate
                           "Msg" "broken.proto"))
             "message {" "syntax error" eq_refl eq_refl).
  - exact (proj1 (proj1 (proj2 (proj2 (error_policy sample_source sample_parse
                                         sample_tabulate "State" "broken.proto")))
                    (OtherException "syntax error") eq_refl)).
  - exact (proj2 (proj2 (proj2 (proj2 (proj2 (error_policy sample_source sample_parse
                                         sample_tabulate "Bogus" "specification/a2a.proto")))
                    "syntax = proto3;" sample_file eq_refl eq_refl)) eq_refl).
Defined.

Lemma oneof_rows_and_notes_witness :
  proto_to_table sample_source sample_parse sample_tabulate "Msg" "specification/a2a.proto"
  = Return
      (PyStr.join newline
         [ "A request.";
           "";
           "Field | Type | Required | Description";
           "`taskId` | `string` | Yes | The identifier.";
           "`labels` | map of string to `integer` | No | ";
           "`x` | `string` | Optional (OneOf) | ";
           "`yZ` | [`Part`](#part) | Optional (OneOf) | The other one.";
           "`only` | `boolean` | Optional (OneOf) | ";
           "";
           "**Note:** A `Msg` MUST contain exactly one of the following: `x`, `yZ`" ]).
Proof.
  refine (proj1 (oneof_rows_and_notes sample_source sample_parse sample_tabulate
                   "Msg" "specification/a2a.proto"
                   (_attach_comments sample_file)
                   (nth 1 (_attach_comments sample_file) (Comment ""))
                   eq_refl eq_refl _)).
  discriminate.
Defined.

(** C4: the code at a member whose display name has a backtick at its
    head.  The name cell keeps the backtick and the note lists the name
    without it, where the claim, and the comments of the code on the group
    tracker, ask for the display name: stripping the code ticks off the name
    cell takes the backtick of the name with them. *)
Lemma backtick_stripped_in_note :
  display_name_of (IsField ticked_field) = "`x"
  /\ proto_to_table (fun _ => Some "") (fun _ => Return ticked_file) sample_tabulate
       "Msg" "specification/a2a.proto"
     = Return
         (PyStr.join newline
            [ "Field | Type | Required | Description";
              "``x` | `string` | Optional (OneOf) | ";
              "`y` | `string` | Optional (OneOf) | ";
              "";
              "**Note:** A `Msg` MUST contain exactly one of the following: `x`, `y`" ])
  /\ oneof_note "Msg" [display_name_of (IsField ticked_field); "y"]
     = "**Note:** A `Msg` MUST contain exactly one of the following: ``x`, `y`"
  /\ oneof_note "Msg" [recorded_name ticked_field; "y"]
     <> oneof_note "Msg" [display_name_of (IsField ticked_field); "y"].
Proof. repeat split. discriminate. Qed.

Lemma none_without_rows_witness :
  proto_to_table sample_source sample_parse sample_tabulate "Empty" "specification/a2a.proto"
    = Return "None"
  /\ proto_service_to_table sample_source sample_parse sample_tabulate "Idle"
       "specification/a2a.proto"
    = Return "None".
Proof.
  split.
  - exact (proj1 (none_without_rows sample_source sample_parse sample_tabulate
                    "Empty" "specification/a2a.proto"
                    (_attach_comments sample_file)
                    (nth 2 (_attach_comments sample_file) (Comment ""))
                    eq_refl) eq_refl eq_refl).
  - exact (proj2 (none_without_rows sample_source sample_parse sample_tabulate
                    "Idle" "specification/a2a.proto"
                    (_attach_comments sample_file)
                    (nth 6 (_attach_comments sample_file) (Comment ""))
                    eq_refl) eq_refl eq_refl).
Defined.

Lemma enum_table_always_witness :
  proto_enum_to_table sample_source sample_parse sample_tabulate "Bare"
    "specification/a2a.proto"
  = Return (newline ++ newline ++ "Value | Description")
  /\ proto_enum_to_table sample_source sample_parse sample_tabulate "State"
       "specification/a2a.proto"
     = Return (PyStr.join newline
                 [ ""; ""; "Value | Description"; "`STATE_UNSPECIFIED` | ";
                   "`DONE` | Done." ]).
Proof.
  split.
  - exact (proj1 (proj2 (enum_table_always sample_source sample_parse sample_tabulate
                           "Bare" "specification/a2a.proto"
                           (_attach_comments sample_file)
                           (nth 4 (_attach_comments sample_file) (Comment ""))
                           eq_refl eq_refl)) eq_refl).
  - exact (proj1 (enum_table_always sample_source sample_parse sample_tabulate
                    "State" "specification/a2a.proto"
                    (_attach_comments sample_file)
                    (nth 3 (_attach_comments sample_file) (Comment ""))
                    eq_refl eq_refl)).
Defined.

(* ------------------------------------------------------------------ *)
(** ** Further properties: the type locator *)
(* ------------------------------------------------------------------ *)

Lemma find_app {A : Type} (p : A -> bool) (a b : list A) :
  find p (a ++ b) = match find p a with Some x => Some x | None => find p b end.
Proof.
  induction a as [|x a IH]; cbn; [reflexivity|]. destruct (p x); [reflexivity | exact IH].
Qed.

Lemma first_found_app {A B : Type} (f : A -> option B) (a b : list A) :
  first_found f (a ++ b)
  = match first_found f a with Some y => Some y | None => first_found f b end.
Proof.
  induction a as [|x a IH]; cbn; [reflexivity|]. destruct (f x); [reflexivity | exact IH].
Qed.

Lemma first_found_scope (name : string) (cls : TargetClass) (elements : list Element) :
  Forall (fun el => find_in_element name cls el = find (matches name cls) (scope_of el))
         elements ->
  first_found (find_in_element name cls) elements
  = find (matches name cls) (flat_map scope_of elements).
Proof.
  intros H. induction H as [|el rest Hel _ IH]; [reflexivity|].
  cbn [first_found flat_map]. rewrite find_app, <- Hel, IH. reflexivity.
Qed.

Lemma find_in_element_scope (name : string) (cls : TargetClass) (el : Element) :
  find_in_element name cls el = find (matches name cls) (scope_of el).
Proof.
  induction el as [el IH] using Element_deep_ind.
  rewrite find_in_element_unfold.
  destruct el; cbn [scope_of find]; unfold matches at 1;
    destruct (name_is name _ && isinstance _ cls); try reflexivity.
  now apply first_found_scope.
Qed.

Lemma find_type_scope (elements : list Element) (name : string) (cls : TargetClass) :
  _find_type elements name cls = find (matches name cls) (search_scope elements).
Proof.
  unfold _find_type, search_scope. apply first_found_scope.
  rewrite Forall_forall. intros el _. apply find_in_element_scope.
Qed.

Lemma name_is_name_of (name : string) (el : Element) :
  name_is name el = true <-> name_of el = Some name.
Proof.
  unfold name_is. destruct (name_of el) as [n|].
  - rewrite String.eqb_eq. split; congruence.
  - split; discriminate.
Qed.

(** X1: the type locator returns the first element, in pre-order through
    the bodies of messages only, that has the name and the class asked for,
    and nothing when there is none; so what it returns has that name and
    class and lies in that scope, and a declaration inside the body of an
    enum, a service, a oneof group or a method is never found. *)
Theorem find_type_first_in_scope :
  forall (elements : list Element) (name : string) (cls : TargetClass),
    _find_type elements name cls = find (matches name cls) (search_scope elements)
    /\ (forall found,
          _find_type elements name cls = Some found ->
          name_of found = Some name /\ isinstance found cls = true
          /\ In found (search_scope elements))
    /\ (_find_type elements name cls = None <->
        forall el, In el (search_scope elements) -> matches name cls el = false)
    /\ (forall n els c, scope_of (Enum n els c) = [Enum n els c])
    /\ (forall n els c, scope_of (Service n els c) = [Service n els c])
    /\ (forall n els c, scope_of (OneOf n els c) = [OneOf n els c]).
Proof.
  intros elements name cls. split; [apply find_type_scope|]. split; [|split].
  - intros found H. rewrite find_type_scope in H. apply find_some in H.
    destruct H as [Hin Hm]. unfold matches in Hm. apply andb_true_iff in Hm.
    destruct Hm as [Hn Hc]. rewrite name_is_name_of in Hn. auto.
  - rewrite find_type_scope. split.
    + intros H el Hin. exact (find_none _ _ H el Hin).
    + intros H. destruct (find (matches name cls) (search_scope elements)) as [x|] eqn:E;
        [|reflexivity].
      apply find_some in E. destruct E as [Hin Hm]. rewrite (H x Hin) in Hm. discriminate.
  - repeat split.
Qed.

Lemma find_type_first_in_scope_witness :
  _find_type
    [ Enum "Outer" [Message "Task" [] []] [];
      Message "Wrapper" [Enum "Task" [] []; Message "Task" [EnumValue "A" []] []] [];
      Message "Task" [] [] ]
    "Task" MessageClass
  = Some (Message "Task" [EnumValue "A" []] []).
Proof.
  exact (proj1 (find_type_first_in_scope
                  [ Enum "Outer" [Message "Task" [] []] [];
                    Message "Wrapper"
                      [Enum "Task" [] []; Message "Task" [EnumValue "A" []] []] [];
                    Message "Task" [] [] ]
                  "Task" MessageClass)).
Defined.

(* ------------------------------------------------------------------ *)
(** ** Further properties: comment attachment and the locator *)
(* ------------------------------------------------------------------ *)

Lemma attach_loop_step (buffer : list string) (el : Element) (rest : list Element) :
  attach_loop attach_element buffer (el :: rest)
  = attach_element buffer el
      :: attach_loop attach_element (buffer_step buffer el) rest.
Proof. destruct el; reflexivity. Qed.

Lemma matches_attach (name : string) (cls : TargetClass) (buffer : list string)
  (el : Element) :
  matches name cls (attach_element buffer el) = matches name cls el.
Proof. unfold matches. now rewrite attach_keeps_name, attach_keeps_class. Qed.

Lemma first_found_attach (name : string) (cls : TargetClass) (elements : list Element) :
  Forall (fun el => forall buffer,
            attached_result (find_in_element name cls el)
                            (find_in_element name cls (attach_element buffer el)))
         elements ->
  forall buffer,
    attached_result
      (first_found (find_in_element name cls) elements)
      (first_found (find_in_element name cls) (attach_loop attach_element buffer elements)).
Proof.
  intros H. induction H as [|el rest Hel _ IH]; intros buffer; [reflexivity|].
  rewrite attach_loop_step. cbn [first_found].
  specialize (Hel buffer). unfold attached_result in Hel.
  destruct (find_in_element name cls el) as [r|].
  - destruct Hel as [b Hb]. rewrite Hb. now exists b.
  - rewrite Hel. apply IH.
Qed.

Lemma find_in_element_attach (name : string) (cls : TargetClass) (el : Element) :
  forall buffer,
    attached_result (find_in_element name cls el)
                    (find_in_element name cls (attach_element buffer el)).
Proof.
  induction el as [el IH] using Element_deep_ind. intros buffer.
  rewrite (find_in_element_unfold name cls (attach_element buffer el)).
  rewrite (find_in_element_unfold name cls el).
  fold (matches name cls (attach_element buffer el)). fold (matches name cls el).
  rewrite matches_attach.
  destruct (matches name cls el).
  - now exists buffer.
  - destruct el; try reflexivity.
    cbn [attach_element]. now apply first_found_attach.
Qed.

Lemma find_type_attach (elements : list Element) (name : string) (cls : TargetClass) :
  attached_result (_find_type elements name cls)
                  (_find_type (_attach_comments elements) name cls).
Proof.
  unfold _find_type, _attach_comments. apply first_found_attach.
  rewrite Forall_forall. intros el _. apply find_in_element_attach.
Qed.

(** X2: attaching the comments does not change what the locator finds: a
    name found in no scope before is found in none after, and the element
    found after is the one found before, with a run of comments attached to
    it and its nested elements walked for theirs. *)
Theorem find_type_after_attach :
  forall (elements : list Element) (name : string) (cls : TargetClass),
    (_find_type elements name cls = None ->
     _find_type (_attach_comments elements) name cls = None)
    /\ (forall found,
          _find_type elements name cls = Some found ->
          exists buffer,
            _find_type (_attach_comments elements) name cls
              = Some (attach_element buffer found)
            /\ elements_of (attach_element buffer found)
               = _attach_comments (elements_of found)).
Proof.
  intros elements name cls.
  pose proof (find_type_attach elements name cls) as H. unfold attached_result in H.
  split.
  - intros Hnone. now rewrite Hnone in H.
  - intros found Hfound. rewrite Hfound in H. destruct H as [b Hb].
    exists b. split; [exact Hb | apply attach_recurses_fresh].
Qed.

Lemma find_type_after_attach_witness :
  exists buffer,
    _find_type
      (_attach_comments
         [ Message "Wrapper" [Comment "// The state."; Enum "State" [] []] [] ])
      "State" EnumClass
    = Some (attach_element buffer (Enum "State" [] []))
    /\ elements_of (attach_element buffer (Enum "State" [] [])) = _attach_comments [].
Proof.
  apply (proj2 (find_type_after_attach
                  [ Message "Wrapper" [Comment "// The state."; Enum "State" [] []] [] ]
                  "State" EnumClass)).
  reflexivity.
Defined.

Lemma matches_not_comment (name : string) (cls : TargetClass) (el : Element) :
  matches name cls el = true -> is_comment el = false.
Proof. destruct el; try reflexivity. unfold matches. cbn. discriminate. Qed.

Lemma find_top_level (before after : list Element) (el : Element)
  (name : string) (cls : TargetClass) :
  matches name cls el = true ->
  (forall x, In x (search_scope before) -> matches name cls x = false) ->
  _find_type (_attach_comments (before ++ el :: after)) name cls
  = Some (attach_element (preceding_run before) el).
Proof.
  intros Hel Hbefore.
  assert (Hraw : _find_type before name cls = None).
  { rewrite find_type_scope.
    destruct (find (matches name cls) (search_scope before)) as [x|] eqn:E; [|reflexivity].
    apply find_some in E. destruct E as [Hin Hm]. rewrite (Hbefore x Hin) in Hm.
    discriminate. }
  pose proof (find_type_attach before name cls) as Hatt.
  rewrite Hraw in Hatt. unfold attached_result, _find_type, _attach_comments in Hatt.
  unfold _find_type, _attach_comments.
  rewrite attach_loop_app, first_found_app, Hatt, attach_loop_step, buffer_after_run.
  cbn [first_found]. rewrite find_in_element_unfold.
  fold (matches name cls (attach_element (preceding_run before) el)).
  now rewrite matches_attach, Hel.
Qed.

(** X3: a type declared at the top level of the file, with no element of
    its name and class in the scope of what stands before it, is what the
    locator returns after the comments are attached, and it then carries
    exactly the run of comments that immediately precedes its declaration,
    whatever comments it carried before. *)
Theorem top_level_type_with_comments :
  forall (before after : list Element) (el : Element) (name : string) (cls : TargetClass),
    matches name cls el = true ->
    (forall x, In x (search_scope before) -> matches name cls x = false) ->
    _find_type (_attach_comments (before ++ el :: after)) name cls
      = Some (attach_element (preceding_run before) el)
    /\ comments_of (attach_element (preceding_run before) el) = preceding_run before.
Proof.
  intros before after el name cls Hel Hbefore. split.
  - now apply find_top_level.
  - apply attach_sets_comments. exact (matches_not_comment _ _ _ Hel).
Qed.

Lemma top_level_type_with_comments_witness :
  _find_type
    (_attach_comments
       [ Comment "// old"; Enum "Task" [] []; Comment "// A task."; Comment "// Details.";
         Message "Task" [] ["stale"]; Comment "// end" ])
    "Task" MessageClass
  = Some (Message "Task" [] ["// A task."; "// Details."]).
Proof.
  apply (proj1 (top_level_type_with_comments
                  [ Comment "// old"; Enum "Task" [] []; Comment "// A task.";
                    Comment "// Details." ]
                  [ Comment "// end" ] (Message "Task" [] ["stale"]) "Task" MessageClass
                  eq_refl
                  ltac:(intros x Hx; cbn in Hx;
                        repeat (destruct Hx as [<- | Hx]; [reflexivity|]);
                        destruct Hx))).
Defined.

Lemma attach_element_twice (el : Element) :
  forall outer inner,
    attach_element outer (attach_element inner el) = attach_element outer el.
Proof.
  induction el as [el IH] using Element_deep_ind. intros outer inner.
  assert (Hloop : forall buffer,
             attach_loop attach_element buffer
               (attach_loop attach_element buffer (elements_of el))
             = attach_loop attach_element buffer (elements_of el)).
  { induction IH as [|x rest Hx _ IHrest]; intros buffer; [reflexivity|].
    rewrite !attach_loop_step, Hx. f_equal.
    replace (buffer_step buffer (attach_element buffer x)) with (buffer_step buffer x)
      by (destruct x; reflexivity).
    apply IHrest. }
  destruct el; cbn [attach_element]; try reflexivity;
    cbn [elements_of elements_attr] in Hloop; now rewrite Hloop.
Qed.

(** X4: attaching the comments twice is attaching them once: the walk reads
    the comment elements only, which it leaves in place, and overwrites
    whatever comments an element carried. *)
Theorem attach_comments_idempotent :
  forall elements : list Element,
    _attach_comments (_attach_comments elements) = _attach_comments elements.
Proof.
  intros elements. unfold _attach_comments. generalize (@nil string) as buffer.
  induction elements as [|el rest IH]; intros buffer; [reflexivity|].
  rewrite !attach_loop_step, attach_element_twice. f_equal.
  replace (buffer_step buffer (attach_element buffer el)) with (buffer_step buffer el)
    by (destruct el; reflexivity).
  apply IH.
Qed.

Lemma attached_comments_conserved (buffer : list string) (elements : list Element) :
  (flat_map comments_of (attach_loop attach_element buffer elements)
     ++ buffer_after buffer elements)%list
  = (buffer ++ comment_texts elements)%list.
Proof.
  revert buffer. induction elements as [|el rest IH]; intros buffer.
  - cbn. now rewrite app_nil_r.
  - rewrite attach_loop_step. cbn [flat_map].
    change (buffer_after buffer (el :: rest)) with (buffer_after (buffer_step buffer el) rest).
    rewrite <- app_assoc, IH.
    destruct el; cbn [attach_element comments_of buffer_step comment_texts flat_map app];
      try reflexivity.
    unfold comment_texts. cbn [flat_map app]. now rewrite <- app_assoc.
Qed.

(** X5: the walk loses and repeats no comment: along a list, the comments
    attached to its elements, in order, followed by the run of comments the
    list ends with, are the texts of all the comments of the list; and the
    list keeps its length. *)
Theorem attach_comments_conserves :
  forall elements : list Element,
    (flat_map comments_of (_attach_comments elements) ++ preceding_run elements)%list
      = comment_texts elements
    /\ List.length (_attach_comments elements) = List.length elements.
Proof.
  intros elements. split.
  - rewrite <- buffer_after_run. apply (attached_comments_conserved [] elements).
  - apply attach_loop_length.
Qed.

(* ------------------------------------------------------------------ *)
(** ** Further properties: descriptions *)
(* ------------------------------------------------------------------ *)

Lemma join_app (sep : string) (a b : list string) :
  a <> [] -> b <> [] ->
  PyStr.join sep (a ++ b) = PyStr.join sep a ++ sep ++ PyStr.join sep b.
Proof.
  intros Ha Hb. induction a as [|x a IH]; [congruence|].
  destruct a as [|y a].
  - destruct b as [|z b]; [congruence|]. reflexivity.
  - change ((x :: y :: a) ++ b)%list with (x :: y :: (a ++ b))%list.
    rewrite !join_cons. change (y :: (a ++ b))%list with ((y :: a) ++ b)%list.
    rewrite IH by discriminate. now rewrite !string_app_assoc.
Qed.

Lemma is_empty_app (a b : string) :
  PyStr.is_empty (a ++ b) = PyStr.is_empty a && PyStr.is_empty b.
Proof. destruct a; reflexivity. Qed.

Lemma join_empty_iff (sep : string) (parts : list string) :
  Forall (fun part => PyStr.truthy part = true) parts ->
  PyStr.is_empty (PyStr.join sep parts) = match parts with [] => true | _ => false end.
Proof.
  intros H. destruct H as [|x rest Hx _]; [reflexivity|].
  destruct rest as [|y rest].
  - cbn. unfold PyStr.truthy in Hx. now destruct (PyStr.is_empty x).
  - rewrite join_cons, is_empty_app. unfold PyStr.truthy in Hx.
    now destruct (PyStr.is_empty x).
Qed.

Lemma survivors_truthy (raw_comments : list string) :
  Forall (fun part => PyStr.truthy part = true)
         (filter survives (map clean_comment raw_comments)).
Proof.
  rewrite Forall_forall. intros part H. apply filter_In in H. destruct H as [_ H].
  unfold survives in H. now apply andb_true_iff in H.
Qed.

Lemma extract_empty_iff (raw_comments : list string) :
  PyStr.is_empty (_extract_comments raw_comments)
  = match filter survives (map clean_comment raw_comments) with
    | [] => true
    | _ => false
    end.
Proof.
  rewrite extract_comments_filter. apply join_empty_iff, survivors_truthy.
Qed.

(** X6: the description of the comments of two lists, one after the other,
    is the two descriptions with one space between them, and the one that is
    not empty when the other is: comments that are dropped leave no space
    behind. *)
Theorem extract_comments_app :
  forall a b : list string,
    _extract_comments (a ++ b)
    = if PyStr.is_empty (_extract_comments a) then _extract_comments b
      else if PyStr.is_empty (_extract_comments b) then _extract_comments a
           else _extract_comments a ++ " " ++ _extract_comments b.
Proof.
  intros a b. rewrite !extract_empty_iff, !extract_comments_filter, map_app, filter_app.
  destruct (filter survives (map clean_comment a)) as [|x xs] eqn:Ea.
  - reflexivity.
  - destruct (filter survives (map clean_comment b)) as [|y ys] eqn:Eb.
    + now rewrite app_nil_r.
    + apply join_app; discriminate.
Qed.

Lemma any_char_app (p : ascii -> bool) (a b : string) :
  any_char p (a ++ b) = any_char p a || any_char p b.
Proof. induction a as [|c a IH]; cbn; [reflexivity | now rewrite IH, orb_assoc]. Qed.

Lemma any_char_drop_while (p q : ascii -> bool) (s : string) :
  any_char p s = false -> any_char p (PyStr.drop_while q s) = false.
Proof.
  induction s as [|c r IH]; cbn; [reflexivity|].
  intros H. destruct (q c); [|exact H].
  apply orb_false_iff in H. now apply IH.
Qed.

Lemma any_char_drop_while_end (p q : ascii -> bool) (s : string) :
  any_char p s = false -> any_char p (PyStr.drop_while_end q s) = false.
Proof.
  induction s as [|c r IH]; cbn; [reflexivity|].
  intros H. apply orb_false_iff in H. destruct H as [Hc Hr].
  destruct (PyStr.is_empty (PyStr.drop_while_end q r) && q c); [reflexivity|].
  cbn. now rewrite Hc, IH.
Qed.

Lemma any_char_strip_by (p q : ascii -> bool) (s : string) :
  any_char p s = false -> any_char p (PyStr.strip_by q s) = false.
Proof.
  intros H. unfold PyStr.strip_by. now apply any_char_drop_while_end, any_char_drop_while.
Qed.

Lemma any_char_strip_prefix (p : ascii -> bool) (pre s r : string) :
  PyStr.strip_prefix pre s = Some r -> any_char p s = false -> any_char p r = false.
Proof.
  revert s. induction pre as [|a pre IH]; intros s; cbn.
  - intros H. now inversion H.
  - destruct s as [|b s]; [discriminate|].
    destruct (Ascii.eqb a b); [|discriminate].
    intros H Hs. cbn in Hs. apply orb_false_iff in Hs. now apply (IH s).
Qed.

Lemma any_char_removeprefix (p : ascii -> bool) (pre s : string) :
  any_char p s = false -> any_char p (PyStr.removeprefix pre s) = false.
Proof.
  intros H. unfold PyStr.removeprefix.
  destruct (PyStr.strip_prefix pre s) as [r|] eqn:E; [|exact H].
  exact (any_char_strip_prefix p pre s r E H).
Qed.

(** No line of [splitlines] holds a line boundary.  The induction carries
    the tail of the string along, for the step over CR LF. *)
Lemma splitlines_no_linebreak (s : string) :
  Forall (fun line => any_char PyStr.is_linebreak line = false) (PyStr.splitlines s)
  /\ Forall (fun line => any_char PyStr.is_linebreak line = false)
            (PyStr.splitlines (match s with String _ r => r | EmptyString => EmptyString end)).
Proof.
  induction s as [|c r [IHr IHtail]].
  - split; constructor.
  - split; [|exact IHr].
    cbn [PyStr.splitlines].
    destruct (PyStr.is_linebreak c) eqn:Hc.
    + constructor; [reflexivity|].
      destruct r as [|c2 r']; [exact IHr|].
      destruct (Ascii.eqb c PyStr.CR && Ascii.eqb c2 PyStr.LF); [exact IHtail | exact IHr].
    + destruct (PyStr.splitlines r) as [|h t].
      * constructor; [|constructor]. cbn. now rewrite Hc.
      * inversion IHr; subst. constructor; [|assumption]. cbn. now rewrite Hc.
Qed.

Lemma any_char_join (p : ascii -> bool) (sep : string) (parts : list string) :
  any_char p sep = false ->
  Forall (fun part => any_char p part = false) parts ->
  any_char p (PyStr.join sep parts) = false.
Proof.
  intros Hsep H. induction H as [|x rest Hx Hrest IH]; [reflexivity|].
  destruct rest as [|y rest]; [exact Hx|].
  rewrite join_cons, !any_char_app, Hx, Hsep. exact IH.
Qed.

Lemma clean_comment_no_linebreak (comment : string) :
  any_char PyStr.is_linebreak (clean_comment comment) = false.
Proof.
  unfold clean_comment. apply any_char_join; [reflexivity|].
  rewrite Forall_forall. intros line Hin.
  apply filter_In in Hin. destruct Hin as [Hin _].
  apply in_map_iff in Hin. destruct Hin as (raw & <- & Hraw).
  match type of Hraw with
  | In _ (PyStr.splitlines ?text) =>
      pose proof (proj1 (splitlines_no_linebreak text)) as Hlines
  end.
  rewrite Forall_forall in Hlines. specialize (Hlines raw Hraw).
  unfold PyStr.strip.
  now apply any_char_strip_by, any_char_removeprefix, any_char_strip_by.
Qed.

(** X7: a description is one line: whatever the comments hold, no line
    boundary is left in it, so it stays inside its table cell. *)
Theorem description_single_line :
  forall raw_comments : list string,
    any_char PyStr.is_linebreak (_extract_comments raw_comments) = false.
Proof.
  intros raw_comments. rewrite extract_comments_filter.
  apply any_char_join; [reflexivity|].
  rewrite Forall_forall. intros part Hin.
  apply filter_In in Hin. destruct Hin as [Hin _].
  apply in_map_iff in Hin. destruct Hin as (raw & <- & _).
  apply clean_comment_no_linebreak.
Qed.

(* ------------------------------------------------------------------ *)
(** ** Further properties: names *)
(* ------------------------------------------------------------------ *)

Lemma split_nonempty (sep : ascii) (s : string) : PyStr.split sep s <> [].
Proof.
  destruct s as [|c r]; cbn; [discriminate|].
  destruct (Ascii.eqb c sep); [discriminate|].
  destruct (PyStr.split sep r); discriminate.
Qed.

Lemma split_segments_clean (sep : ascii) (s : string) :
  Forall (fun segment => has_char sep segment = false) (PyStr.split sep s).
Proof.
  induction s as [|c r IH]; cbn [PyStr.split].
  - constructor; [reflexivity | constructor].
  - destruct (Ascii.eqb c sep) eqn:Hc.
    + constructor; [reflexivity | exact IH].
    + destruct (PyStr.split sep r) as [|h t].
      * constructor; [|constructor]. cbn. now rewrite Hc.
      * inversion IH; subst. constructor; [|assumption]. cbn. now rewrite Hc.
Qed.

(** Splitting at a separator what was put together around it. *)
Lemma split_around (sep : ascii) (a b : string) :
  PyStr.split sep (a ++ String sep b) = (PyStr.split sep a ++ PyStr.split sep b)%list.
Proof.
  induction a as [|c a IH]; cbn [append PyStr.split].
  - now rewrite Ascii.eqb_refl.
  - rewrite IH. destruct (Ascii.eqb c sep); [reflexivity|].
    pose proof (split_nonempty sep a) as Hne.
    destruct (PyStr.split sep a) as [|h t]; [congruence | reflexivity].
Qed.

Lemma last_app_nonempty {A : Type} (a b : list A) (d : A) :
  b <> [] -> last (a ++ b) d = last b d.
Proof.
  intros Hb. induction a as [|x a IH]; [reflexivity|].
  cbn [app]. destruct (a ++ b)%list as [|y l] eqn:E.
  - destruct a; [cbn in E; congruence | discriminate].
  - cbn [last] in *. exact IH.
Qed.

Lemma simple_name_qualified (qualifier name : string) :
  has_char "." name = false -> simple_name (qualifier ++ "." ++ name) = name.
Proof.
  intros H. unfold simple_name.
  change (qualifier ++ "." ++ name) with (qualifier ++ String "." name).
  rewrite split_around, last_app_nonempty by apply split_nonempty.
  now rewrite split_no_separator.
Qed.

(** X8: of a qualified type name only what follows its last dot is shown:
    the simple name of [<qualifier>.<name>] is [<name>] when the name holds
    no dot, whatever dots the qualifier holds; and such a type, when it is
    not a primitive, is labelled and anchored by that name alone, the
    qualifier appearing nowhere. *)
Theorem qualified_name_label :
  forall qualifier name : string,
    has_char "." name = false ->
    simple_name (qualifier ++ "." ++ name) = name
    /\ simple_name name = name
    /\ (dict_mem (qualifier ++ "." ++ name) TYPE_MAP
          || PyStr.startswith "google.protobuf" (qualifier ++ "." ++ name) = false ->
        type_label (qualifier ++ "." ++ name)
        = "[" ++ inline_code name ++ "](#" ++ PyStr.lower name ++ ")").
Proof.
  intros qualifier name Hname. split; [|split].
  - now apply simple_name_qualified.
  - unfold simple_name. now rewrite split_no_separator.
  - intros Hprim. unfold type_label, _format_type_for_docs, provided.
    apply orb_false_iff in Hprim. destruct Hprim as [Hmem Hpre].
    unfold dict_get, dict_mem in *.
    destruct (dict_lookup (qualifier ++ "." ++ name) TYPE_MAP); [discriminate|].
    rewrite orb_false_l, Hpre, (simple_name_qualified _ _ Hname). reflexivity.
Qed.

Lemma qualified_name_label_witness :
  type_label "a2a.v1.TaskState" = "[`TaskState`](#taskstate)".
Proof.
  exact (proj2 (proj2 (qualified_name_label "a2a.v1" "TaskState" eq_refl)) eq_refl).
Defined.

Lemma has_char_app (c : ascii) (a b : string) :
  has_char c (a ++ b) = has_char c a || has_char c b.
Proof. induction a as [|x a IH]; cbn; [reflexivity | now rewrite IH, orb_assoc]. Qed.

Lemma title_char_not_underscore (c : ascii) (previous_is_cased : bool) :
  Ascii.eqb
    (if PyStr.is_cased c
     then (if previous_is_cased then PyStr.to_lower c else PyStr.to_upper c)
     else c)
    underscore
  = Ascii.eqb c underscore.
Proof.
  destruct c as [[] [] [] [] [] [] [] []], previous_is_cased; vm_compute; reflexivity.
Qed.

Lemma title_keeps_underscores (previous_is_cased : bool) (s : string) :
  has_char underscore (PyStr.title_from previous_is_cased s) = has_char underscore s.
Proof.
  revert previous_is_cased. induction s as [|c r IH]; intros b; [reflexivity|].
  cbn [PyStr.title_from].
  pose proof (title_char_not_underscore c b) as Hc.
  destruct (PyStr.is_cased c); cbn [has_char].
  - now rewrite Hc, IH.
  - now rewrite IH.
Qed.

Lemma has_char_join_empty (c : ascii) (parts : list string) :
  Forall (fun part => has_char c part = false) parts ->
  has_char c (PyStr.join "" parts) = false.
Proof.
  intros H. induction H as [|x rest Hx _ IH]; [reflexivity|].
  destruct rest as [|y rest]; [exact Hx|].
  rewrite join_cons. cbn [append]. now rewrite has_char_app, Hx, IH.
Qed.

(** X9: the camelCase form of a name holds no underscore, whatever the
    name: every underscore of a snake_case name is a separator, and none is
    put back. *)
Theorem camel_case_no_underscore :
  forall snake_str : string, has_char underscore (_snake_to_camel_case snake_str) = false.
Proof.
  intros snake_str. unfold _snake_to_camel_case.
  change "_"%char with underscore.
  pose proof (split_segments_clean underscore snake_str) as H.
  destruct (PyStr.split underscore snake_str) as [|first rest]; [reflexivity|].
  inversion H as [|? ? Hfirst Hrest]; subst. cbn [hd tl].
  rewrite has_char_app, Hfirst. cbn [orb].
  apply has_char_join_empty. rewrite Forall_forall in *.
  intros part Hin. apply in_map_iff in Hin. destruct Hin as (segment & <- & Hseg).
  unfold PyStr.title. rewrite title_keeps_underscores. now apply Hrest.
Qed.

Lemma title_length (previous_is_cased : bool) (s : string) :
  String.length (PyStr.title_from previous_is_cased s) = String.length s.
Proof.
  revert previous_is_cased. induction s as [|c r IH]; intros b; [reflexivity|].
  cbn [PyStr.title_from]. destruct (PyStr.is_cased c); cbn [String.length]; now rewrite IH.
Qed.

Lemma split_lengths (sep : ascii) (s : string) :
  total_length (PyStr.split sep s) + count_char sep s = String.length s.
Proof.
  induction s as [|c r IH]; [reflexivity|].
  cbn [PyStr.split count_char String.length].
  destruct (Ascii.eqb c sep).
  - cbn [total_length fold_right String.length]. fold (total_length (PyStr.split sep r)). lia.
  - pose proof (split_nonempty sep r) as Hne.
    destruct (PyStr.split sep r) as [|h t]; [congruence|].
    cbn [total_length fold_right String.length] in *. lia.
Qed.

Lemma join_empty_length (parts : list string) :
  String.length (PyStr.join "" parts) = total_length parts.
Proof.
  induction parts as [|x rest IH]; [reflexivity|].
  destruct rest as [|y rest].
  - cbn. lia.
  - rewrite join_cons. cbn [append]. rewrite string_length_app, IH. reflexivity.
Qed.

Lemma total_length_title (parts : list string) :
  total_length (map PyStr.title parts) = total_length parts.
Proof.
  induction parts as [|x rest IH]; [reflexivity|].
  cbn [map total_length fold_right]. fold (total_length (map PyStr.title rest)).
  fold (total_length rest). unfold PyStr.title at 1. now rewrite title_length, IH.
Qed.

(** X10: the camelCase form of a name is the name without its underscores,
    letter case apart: it is shorter than the name by exactly the number of
    underscores in it. *)
Theorem camel_case_length :
  forall snake_str : string,
    String.length (_snake_to_camel_case snake_str) + count_char underscore snake_str
    = String.length snake_str.
Proof.
  intros snake_str. unfold _snake_to_camel_case.
  change "_"%char with underscore.
  rewrite <- (split_lengths underscore snake_str).
  pose proof (split_nonempty underscore snake_str) as Hne.
  destruct (PyStr.split underscore snake_str) as [|first rest]; [congruence|].
  cbn [hd tl]. rewrite string_length_app, join_empty_length, total_length_title.
  reflexivity.
Qed.

(* ------------------------------------------------------------------ *)
(** ** Further properties: the message renderer *)
(* ------------------------------------------------------------------ *)

Lemma no_member_fields (members : list Element) :
  existsb (fun m => match m with FieldElement _ => true | _ => false end) members = false ->
  member_fields members = [].
Proof.
  induction members as [|m members IH]; [reflexivity|].
  cbn [existsb]. intros H. apply orb_false_iff in H. destruct H as [Hm Hrest].
  destruct m; try discriminate; cbn [member_fields]; now apply IH.
Qed.

Lemma silent_element (el : Element) :
  produces_row el = false ->
  rows_of_element el = [] /\ forall d, record_element d el = d.
Proof.
  destruct el; cbn [produces_row rows_of_element record_element]; try discriminate;
    try (intros _; split; reflexivity).
  intros H. unfold oneof_rows. rewrite (no_member_fields _ H). split; reflexivity.
Qed.

(** X11: only the fields, the map fields and the oneof groups that hold a
    field count among the children of a message: the rows and the groups are
    those of the list with every other child left out, so comments, nested
    messages and enums, options and empty groups change nothing. *)
Theorem collect_rows_ignores_other_children :
  forall elements : list Element,
    collect_rows elements = collect_rows (filter produces_row elements).
Proof.
  intros elements. rewrite !collect_rows_spec.
  generalize (@nil (string * list string)) as d.
  induction elements as [|el rest IH]; intros d; [reflexivity|].
  cbn [filter]. destruct (produces_row el) eqn:Hel.
  - cbn [flat_map fold_left]. specialize (IH (record_element d el)).
    inversion IH as [[Hrows Hgroups]]. now rewrite Hrows, Hgroups.
  - destruct (silent_element el Hel) as [Hrows Hrec].
    cbn [flat_map fold_left]. rewrite Hrows, Hrec. apply IH.
Qed.

Lemma dict_mem_keys {V : Type} (g : string) (d : list (string * V)) :
  dict_mem g d = existsb (String.eqb g) (map fst d).
Proof.
  unfold dict_mem. induction d as [|[k v] d IH]; [reflexivity|].
  cbn. rewrite (String.eqb_sym g k). destruct (String.eqb k g); [reflexivity | exact IH].
Qed.

Lemma dict_mem_setdefault (g v : string) (d : list (string * list string)) :
  dict_mem g (setdefault_append g v d) = true.
Proof. unfold dict_mem. now rewrite lookup_setdefault_same. Qed.

Lemma keys_record_all_present (g : string) (names : list string)
  (d : list (string * list string)) :
  dict_mem g d = true -> map fst (record_all g names d) = map fst d.
Proof.
  revert d. induction names as [|v names IH]; intros d Hmem; [reflexivity|].
  change (record_all g (v :: names) d)
    with (record_all g names (setdefault_append g v d)).
  rewrite IH by apply dict_mem_setdefault.
  now rewrite keys_setdefault, Hmem.
Qed.

Lemma keys_record_all (g : string) (names : list string)
  (d : list (string * list string)) :
  map fst (record_all g names d)
  = match names with
    | [] => map fst d
    | _ :: _ => if dict_mem g d then map fst d else (map fst d ++ [g])%list
    end.
Proof.
  destruct names as [|v names]; [reflexivity|].
  change (record_all g (v :: names) d)
    with (record_all g names (setdefault_append g v d)).
  rewrite keys_record_all_present by apply dict_mem_setdefault.
  apply keys_setdefault.
Qed.

Lemma keys_record_elements (elements : list Element) (d : list (string * list string)) :
  map fst (fold_left record_element elements d)
  = (map fst d ++ first_occurrences (map fst d) (group_names elements))%list.
Proof.
  revert d. induction elements as [|el rest IH]; intros d.
  - cbn. now rewrite app_nil_r.
  - cbn [fold_left]. rewrite IH. unfold group_names. cbn [flat_map].
    fold (group_names rest).
    destruct el; cbn [record_element app]; try reflexivity.
    rewrite keys_record_all.
    destruct (member_fields elements) as [|f fs]; cbn [map app]; [reflexivity|].
    cbn [first_occurrences]. rewrite <- dict_mem_keys.
    destruct (dict_mem name d); [reflexivity|].
    now rewrite <- app_assoc.
Qed.

(** X12: the groups are kept in the order in which their names first occur
    among the oneof groups that hold a field, a name declared again adding
    no second entry; the notes, taken from the groups in turn, follow that
    order. *)
Theorem oneof_groups_order :
  forall elements : list Element,
    map fst (snd (collect_rows elements)) = first_occurrences [] (group_names elements).
Proof.
  intros elements. rewrite collect_rows_spec. cbn [snd].
  now rewrite keys_record_elements.
Qed.

Lemma strip_by_wrapped (p : ascii -> bool) (c : ascii) (s : string) :
  p c = true ->
  PyStr.strip_by p (String c (s ++ String c EmptyString)) = PyStr.strip_by p s.
Proof.
  intros H. unfold PyStr.strip_by at 1. cbn [PyStr.drop_while]. rewrite H.
  now apply strip_by_snoc.
Qed.

(** X13: a JSON name comes back out of its quotes: when the first
    [json_name] option of a field holds a name between two double quotes,
    the name not empty and with no double quote at either end, the display
    name is that name, and the name cell is the name in inline code. *)
Theorem json_name_round_trip :
  forall (field : FieldLike) (is_oneof : bool) (before after : list ProtoOption)
         (json_name : string),
    like_options field = (before ++ mkOption "json_name" (quoted json_name) :: after)%list ->
    Forall (fun o => is_json_name o = false) before ->
    json_name <> EmptyString ->
    starts_with_char PyStr.dquote json_name = false ->
    ends_with_char PyStr.dquote json_name = false ->
    display_name_of field = json_name
    /\ name_cell (_process_field field is_oneof) = inline_code json_name.
Proof.
  intros field is_oneof before after json_name Hopts Hbefore Hne Hs He.
  assert (Hdisplay : display_name_of field = json_name).
  { unfold display_name_of, json_name_of.
    change (fun o : ProtoOption => (option_name o =? "json_name")%string) with is_json_name.
    rewrite Hopts,
      (find_first_json_name before after (mkOption "json_name" (quoted json_name))
         Hbefore eq_refl).
    cbn [option_value or_else]. unfold quoted, PyStr.strip_char.
    rewrite (strip_by_wrapped _ PyStr.dquote json_name (Ascii.eqb_refl _)).
    fold (PyStr.strip_char PyStr.dquote json_name).
    rewrite (strip_char_no_ends _ _ Hs He), (truthy_nonempty _ Hne). reflexivity. }
  split; [exact Hdisplay|].
  unfold name_cell, _process_field. cbn [nth]. now rewrite Hdisplay.
Qed.

Lemma json_name_round_trip_witness :
  display_name_of
    (IsField (mkField "context_id" "string" None
                [mkOption "deprecated" "false"; mkOption "json_name" (quoted "contextId")] []))
  = "contextId".
Proof.
  apply (proj1 (json_name_round_trip
                  (IsField (mkField "context_id" "string" None
                              [mkOption "deprecated" "false";
                               mkOption "json_name" (quoted "contextId")] []))
                  false [mkOption "deprecated" "false"] [] "contextId"
                  eq_refl ltac:(repeat constructor)
                  ltac:(discriminate) eq_refl eq_refl)).
Defined.

Lemma attach_split (before after : list Element) (el : Element) :
  is_comment el = false ->
  _attach_comments (before ++ el :: after)
  = (_attach_comments before
       ++ attach_element (preceding_run before) el :: _attach_comments after)%list.
Proof.
  intros Hel. unfold _attach_comments.
  rewrite attach_loop_app, attach_loop_step, buffer_after_run.
  now destruct el.
Qed.

(** X14: in the table of a message whose comments have been attached, a
    field stands between the rows of what precedes it in the body and the
    rows of what follows it, and its row is the one it has without comments
    but for the description, which is that of the run of comments that
    immediately precedes the field, and of nothing else. *)
Theorem field_row_after_attach :
  forall (before after : list Element) (f : Field),
    fst (collect_rows (_attach_comments (before ++ FieldElement f :: after)))
    = (fst (collect_rows (_attach_comments before))
         ++ [ name_cell (_process_field (IsField f) false);
              type_cell (_process_field (IsField f) false);
              required_cell (_process_field (IsField f) false);
              _extract_comments (preceding_run before) ]
         :: fst (collect_rows (_attach_comments after)))%list.
Proof.
  intros before after f.
  rewrite (attach_split before after (FieldElement f) eq_refl), !collect_rows_spec.
  cbn [fst]. rewrite flat_map_app. reflexivity.
Qed.

(* ------------------------------------------------------------------ *)
(** ** Further properties: the service renderer *)
(* ------------------------------------------------------------------ *)

Lemma type_label_not_stream (proto_type : string) :
  PyStr.startswith "stream " (type_label proto_type) = false.
Proof.
  unfold type_label, _format_type_for_docs, provided.
  destruct (negb (dict_mem proto_type TYPE_MAP
                  || PyStr.startswith "google.protobuf" proto_type)); reflexivity.
Qed.

(** X15: in the row of a method, the request cell begins with [stream ]
    exactly when the request is streamed, and so does the response cell for
    the response: the label of a type, which opens with a backtick or a
    bracket, is never taken for the mark; without the mark the cell is the
    label of the type. *)
Theorem method_row_stream_mark :
  forall (name : string) (input_type output_type : MessageType) (comments : list string),
    PyStr.startswith "stream " (nth 1 (method_row name input_type output_type comments) "")
      = stream input_type
    /\ PyStr.startswith "stream " (nth 2 (method_row name input_type output_type comments) "")
      = stream output_type
    /\ nth 1 (method_row name input_type output_type comments) ""
       = (if stream input_type then "stream " else "") ++ type_label (type_name input_type)
    /\ nth 2 (method_row name input_type output_type comments) ""
       = (if stream output_type then "stream " else "") ++ type_label (type_name output_type).
Proof.
  intros name input_type output_type comments.
  unfold method_row, stream_prefix. cbn [nth].
  fold (type_label (type_name input_type)). fold (type_label (type_name output_type)).
  pose proof (type_label_not_stream (type_name input_type)) as Hi.
  pose proof (type_label_not_stream (type_name output_type)) as Ho.
  destruct (stream input_type), (stream output_type); repeat split; assumption.
Qed.

(* ------------------------------------------------------------------ *)
(** ** Further properties: from the file to the table *)
(* ------------------------------------------------------------------ *)

Section FileToTable.

Variable source_text : string -> option string.
Variable Parser_parse : string -> result (list Element).
Variable tabulate : list (list string) -> list string -> string.

(** X16: for a message declared at the top level of a file that is read
    and parsed, with no message of its name in the scope of what stands
    before it, the message macro returns [None] when the body, its comments
    attached, gives no row, and else the lines of: the description of the
    run of comments that immediately precedes the declaration, when it is not
    empty, and an empty line; the table of the rows of the body; the notes of
    its oneof groups. *)
Theorem message_table_of_file :
  forall (name proto_file text : string) (before after body : list Element)
         (comments : list string),
    source_text proto_file = Some text ->
    Parser_parse text = Return (before ++ Message name body comments :: after)%list ->
    (forall x, In x (search_scope before) -> matches name MessageClass x = false) ->
    proto_to_table source_text Parser_parse tabulate name proto_file
    = match flat_map rows_of_element (_attach_comments body) with
      | [] => Return "None"
      | _ :: _ =>
          Return
            (PyStr.join newline
               ((if PyStr.truthy (_extract_comments (preceding_run before))
                 then [_extract_comments (preceding_run before); EmptyString]
                 else [])
                  ++ [tabulate (flat_map rows_of_element (_attach_comments body))
                               message_headers]
                  ++ notes_section name (snd (collect_rows (_attach_comments body))))%list)
      end.
Proof.
  intros name proto_file text before after body comments Htext Hparse Hbefore.
  assert (Hmatch : matches name MessageClass (Message name body comments) = true).
  { unfold matches, name_is. cbn. now rewrite String.eqb_refl. }
  rewrite (render_message_found source_text Parser_parse tabulate name proto_file
             (_attach_comments (before ++ Message name body comments :: after))
             (attach_element (preceding_run before) (Message name body comments))
             (parse_returns _ _ _ _ _ Htext Hparse)
             (find_top_level _ _ _ _ _ Hmatch Hbefore)).
  reflexivity.
Qed.

(** X17: for an enum declared at the top level of a file that is read and
    parsed, with no enum of its name in the scope of what stands before it,
    the enum macro returns the description of the run of comments that
    immediately precedes the declaration, two newlines, and the table of the
    values of the body, each with the description of the comments that
    immediately precede it in the body. *)
Theorem enum_table_of_file :
  forall (name proto_file text : string) (before after body : list Element)
         (comments : list string),
    source_text proto_file = Some text ->
    Parser_parse text = Return (before ++ Enum name body comments :: after)%list ->
    (forall x, In x (search_scope before) -> matches name EnumClass x = false) ->
    proto_enum_to_table source_text Parser_parse tabulate name proto_file
    = Return (_extract_comments (preceding_run before) ++ newline ++ newline
                ++ tabulate (enum_rows (_attach_comments body)) enum_headers).
Proof.
  intros name proto_file text before after body comments Htext Hparse Hbefore.
  assert (Hmatch : matches name EnumClass (Enum name body comments) = true).
  { unfold matches, name_is. cbn. now rewrite String.eqb_refl. }
  rewrite (render_enum_found source_text Parser_parse tabulate name proto_file
             (_attach_comments (before ++ Enum name body comments :: after))
             (attach_element (preceding_run before) (Enum name body comments))
             (parse_returns _ _ _ _ _ Htext Hparse)
             (find_top_level _ _ _ _ _ Hmatch Hbefore)).
  reflexivity.
Qed.

End FileToTable.

Lemma message_table_of_file_witness :
  proto_to_table sample_source sample_parse sample_tabulate "Msg" "specification/a2a.proto"
  = Return
      (PyStr.join newline
         [ "A request.";
           "";
           "Field | Type | Required | Description";
           "`taskId` | `string` | Yes | The identifier.";
           "`labels` | map of string to `integer` | No | ";
           "`x` | `string` | Optional (OneOf) | ";
           "`yZ` | [`Part`](#part) | Optional (OneOf) | The other one.";
           "`only` | `boolean` | Optional (OneOf) | ";
           "";
           "**Note:** A `Msg` MUST contain exactly one of the following: `x`, `yZ`" ]).
Proof.
  refine (message_table_of_file sample_source sample_parse sample_tabulate
            "Msg" "specification/a2a.proto" "syntax = proto3;"
            (firstn 1 sample_file) (skipn 2 sample_file)
            (elements_of (nth 1 sample_file (Comment ""))) [] eq_refl eq_refl _).
  intros x Hx. cbn in Hx.
  repeat (destruct Hx as [<- | Hx]; [reflexivity|]). destruct Hx.
Defined.

Lemma enum_table_of_file_witness :
  proto_enum_to_table sample_source sample_parse sample_tabulate "State"
    "specification/a2a.proto"
  = Return (PyStr.join newline
              [ ""; ""; "Value | Description"; "`STATE_UNSPECIFIED` | ";
                "`DONE` | Done." ]).
Proof.
  refine (enum_table_of_file sample_source sample_parse sample_tabulate
            "State" "specification/a2a.proto" "syntax = proto3;"
            (firstn 3 sample_file) (skipn 4 sample_file)
            [EnumValue "STATE_UNSPECIFIED" []; Comment "// Done."; EnumValue "DONE" []] []
            eq_refl eq_refl _).
  intros x Hx. cbn in Hx.
  repeat (destruct Hx as [<- | Hx]; [reflexivity|]). destruct Hx.
Defined.

Section ServiceFileToTable.

Variable source_text : string -> option string.
Variable Parser_parse : string -> result (list Element).
Variable tabulate : list (list string) -> list string -> string.

(** X18: for a service declared at the top level of a file that is read
    and parsed, with no service of its name in the scope of what stands
    before it, the service macro returns [None] when the body holds no
    method, and else the table of one row for every method of the body, in
    order, each with the description of the comments that immediately
    precede it in the body; the comments before the service are not shown. *)
Theorem service_table_of_file :
  forall (name proto_file text : string) (before after body : list Element)
         (comments : list string),
    source_text proto_file = Some text ->
    Parser_parse text = Return (before ++ Service name body comments :: after)%list ->
    (forall x, In x (search_scope before) -> matches name ServiceClass x = false) ->
    proto_service_to_table source_text Parser_parse tabulate name proto_file
    = match method_rows (_attach_comments body) with
      | [] => Return "None"
      | _ :: _ => Return (tabulate (method_rows (_attach_comments body)) service_headers)
      end.
Proof.
  intros name proto_file text before after body comments Htext Hparse Hbefore.
  assert (Hmatch : matches name ServiceClass (Service name body comments) = true).
  { unfold matches, name_is. cbn. now rewrite String.eqb_refl. }
  rewrite (render_service_found source_text Parser_parse tabulate name proto_file
             (_attach_comments (before ++ Service name body comments :: after))
             (attach_element (preceding_run before) (Service name body comments))
             (parse_returns _ _ _ _ _ Htext Hparse)
             (find_top_level _ _ _ _ _ Hmatch Hbefore)).
  reflexivity.
Qed.

End ServiceFileToTable.

Lemma service_table_of_file_witness :
  proto_service_to_table sample_source sample_parse sample_tabulate "Tasks"
    "specification/a2a.proto"
  = Return (PyStr.join newline
              [ "Method | Request | Response | Description";
                "`Send` | [`Msg`](#msg) | stream `empty` | Sends." ]).
Proof.
  refine (service_table_of_file sample_source sample_parse sample_tabulate
            "Tasks" "specification/a2a.proto" "syntax = proto3;"
            (firstn 5 sample_file) (skipn 6 sample_file)
            (elements_of (nth 5 sample_file (Comment ""))) [] eq_refl eq_refl _).
  intros x Hx. cbn in Hx.
  repeat (destruct Hx as [<- | Hx]; [reflexivity|]). destruct Hx.
Defined.
